(** * Secure key custody and policy-scoped execution engine

    A shallow embedding of [SecureKeyStore], [RateLimiter], [VolumeTracker],
    [ExecutionEngine] and [SecureAgenticWallet], together with the
    properties of the written specification that concern them.

    Modelling conventions.
    - A JavaScript [number] that carries an amount or a limit is an exact
      rational ([Q]); the rounding of [+], [-] and [*] and the values NaN and
      Infinity are outside the model.  The statements below compare such
      numbers and add them as the source does, one [+] after the other in
      its order of evaluation; none rests on an identity of exact arithmetic
      that rounding would break, such as regrouping a sum.
    - [Date.now()] is an integer number of milliseconds ([Z]); each reading
      of the clock is an explicit argument.
    - A [Buffer] or [Uint8Array] is a reference into a heap of byte lists,
      so that copying and zero-filling are visible.  The heap holds the
      buffers that the source passes around or wipes; the Buffers that
      [cipher] and [decipher] return from [update] and [final] and the copies
      that web3.js keeps or makes internally are not represented, and no
      statement below says that no copy of a key is left in memory.
    - A JavaScript string is a [string], one character per code unit; a key
      file is the [EncryptedKeyData] document itself, and the directory
      [storePath] is a finite map from file names to documents.
    - Messages of thrown [Error]s and of denial reasons are constructors of
      [Reason], one per message template of the source.
    - [crypto.randomBytes], PBKDF2 and AES-256-GCM, and the Solana client are
      collaborators: their results are arguments ([salt], [iv]), members of
      the [Crypto] interface, or fields of the [Ledger] record. *)

From Stdlib Require Import ZArith QArith Qround Lqa String Ascii DecimalString.
From Stdlib.Strings Require Import Byte.
From stdpp Require Import gmap strings list.

Close Scope Q_scope.
Open Scope Z_scope.

(** ** JavaScript numbers *)

Abbreviation number := Q.

(** [a > b] on numbers. *)
Definition numGt (a b : number) : bool := negb (Qle_bool a b).

(** [a < b] on numbers. *)
Definition numLt (a b : number) : bool := negb (Qle_bool b a).

(** [x || 0] for an optional numeric field: [undefined] and [0] are falsy. *)
Definition orZero (x : option number) : number :=
  match x with
  | Some q => if Qeq_bool q 0 then 0%Q else q
  | None => 0%Q
  end.

(** [Math.max(0, x)]. *)
Definition max0 (x : number) : number := if numGt 0%Q x then 0%Q else x.

(** [s] used as a condition, for an optional string field: [undefined] and
    the empty string are falsy. *)
Definition truthy (s : option string) : option string :=
  match s with
  | Some EmptyString => None
  | Some t => Some t
  | None => None
  end.

#[export] Instance byte_eq_dec : EqDecision byte := Byte.byte_eq_dec.

(** ** Hexadecimal encoding of buffers *)

Module Hex.

Definition digit (n : N) : ascii :=
  ascii_of_N (if (n <? 10)%N then 48 + n else 87 + n)%N.

(** [buf.toString('hex')]: two lowercase digits per byte. *)
Fixpoint encode (bs : list byte) : string :=
  match bs with
  | [] => EmptyString
  | b :: rest =>
      let n := Byte.to_N b in
      String (digit (n / 16)) (String (digit (n mod 16)) (encode rest))
  end.

Definition value (c : ascii) : option N :=
  let n := N_of_ascii c in
  if ((48 <=? n) && (n <=? 57))%N then Some (n - 48)%N
  else if ((97 <=? n) && (n <=? 102))%N then Some (n - 87)%N
  else if ((65 <=? n) && (n <=? 70))%N then Some (n - 55)%N
  else None.

(** [Buffer.from(s, 'hex')]: decodes pairs of digits and stops at the
    first pair that is not hexadecimal; a trailing single digit is
    dropped. *)
Fixpoint decode (s : string) : list byte :=
  match s with
  | String c1 (String c2 rest) =>
      match value c1, value c2 with
      | Some h, Some l =>
          match Byte.of_N (h * 16 + l) with
          | Some b => b :: decode rest
          | None => []
          end
      | _, _ => []
      end
  | _ => []
  end.

End Hex.

(** ** The UTC calendar date of a time value *)

Module IsoDate.

Definition msPerDay : Z := 86400000.

(** Days since 1970-01-01 (UTC) of a time value in milliseconds. *)
Definition utcDay (t : Z) : Z := t / msPerDay.

(** Proleptic Gregorian (year, month, day) of a day number. *)
Definition civil (days : Z) : Z * Z * Z :=
  let z := days + 719468 in
  let era := z / 146097 in
  let doe := z - era * 146097 in
  let yoe := (doe - doe / 1460 + doe / 36524 - doe / 146096) / 365 in
  let doy := doe - (365 * yoe + yoe / 4 - yoe / 100) in
  let mp := (5 * doy + 2) / 153 in
  let d := doy - (153 * mp + 2) / 5 + 1 in
  let m := if mp <? 10 then mp + 3 else mp - 9 in
  let y := yoe + era * 400 + (if m <=? 2 then 1 else 0) in
  (y, m, d).

Definition digitChar (n : Z) : ascii := ascii_of_N (48 + Z.to_N n).

(** The [width] least significant decimal digits of [n], zero padded. *)
Fixpoint padded (width : nat) (n : Z) (acc : string) : string :=
  match width with
  | O => acc
  | S w => padded w (n / 10) (String (digitChar (n mod 10)) acc)
  end.

(** Years 0..9999 print with four digits, the others with a sign and six. *)
Definition year (y : Z) (rest : string) : string :=
  if (0 <=? y) && (y <=? 9999) then padded 4 y rest
  else String (if y <? 0 then "-"%char else "+"%char) (padded 6 (Z.abs y) rest).

(** [new Date(t).toISOString().split('T')[0]]. *)
Definition isoDate (t : Z) : string :=
  let '(y, m, d) := civil (utcDay t) in
  year y (String "-" (padded 2 m (String "-" (padded 2 d EmptyString)))).

End IsoDate.

(** ** Vocabulary of the engine *)

(** [ActionType]. *)
Inductive ActionType :=
| transfer_sol
| transfer_token
| create_token_account
| close_account
| custom.

#[export] Instance ActionType_eq_dec : EqDecision ActionType.
Proof. solve_decision. Defined.

(** [PermissionLevel]. *)
Inductive PermissionLevel :=
| READ_ONLY
| LIMITED
| STANDARD
| ELEVATED
| ADMIN.

#[export] Instance PermissionLevel_eq_dec : EqDecision PermissionLevel.
Proof. solve_decision. Defined.

(** The messages of the source: denial reasons and [Error] messages, one
    constructor per template. *)
Inductive Reason :=
(* validatePermissions *)
| AgentNotRegistered                          (* 'Agent not registered' *)
| ReadOnlyAgent                               (* 'Read-only agent cannot execute transactions' *)
| ActionNotAllowed (a : ActionType)           (* `Action not allowed: ${action}` *)
| AmountExceedsMax (amount max : number)      (* `Amount ${amount} exceeds max ${max} SOL` *)
| DestinationNotInWhitelist                   (* 'Destination not in whitelist' *)
(* execute *)
| RateLimitExceeded                           (* 'Rate limit exceeded' *)
| DailyVolumeLimitExceeded (current max : number) (* `Daily volume limit exceeded (...)` *)
(* SecureKeyStore *)
| WalletNotFound (walletId : string)          (* `Wallet not found: ${walletId}` *)
| UnsupportedVersion (version : Z)            (* `Unsupported keystore version: ${version}` *)
| InvalidPasswordOrCorrupted                  (* 'Invalid password or corrupted keystore' *)
(* buildTransaction *)
| MissingTransferSolParams                    (* 'Missing destination or amount for transfer_sol' *)
| MissingTransferTokenParams                  (* 'Missing parameters for transfer_token' *)
| MissingMint                                 (* 'Missing mint for create_token_account' *)
| MissingInstructions                         (* 'Missing instructions for custom action' *)
| UnknownAction (a : ActionType)              (* `Unknown action: ${action}` *)
(* SecureAgenticWallet *)
| WalletAlreadyExists (agentId : string)      (* `Wallet already exists: ${agentId}` *)
| CouldNotGetWalletInfo (agentId : string)    (* `Could not get wallet info: ${agentId}` *)
| AmountExceedsRemaining (amount remaining : number)
                                              (* `Amount ${amount} exceeds remaining allowance ...` *)
| DestinationNotWhitelisted                   (* 'Destination not whitelisted' *)
(* thrown by a collaborator or by the runtime *)
| External (message : string).

(** ** Exceptions *)

(** The outcome of a computation that may throw. *)
Inductive Result (A : Type) :=
| Ok (a : A)
| Throw (r : Reason).

Arguments Ok {A} a.
Arguments Throw {A} r.

Definition bind {A B} (m : Result A) (k : A -> Result B) : Result B :=
  match m with
  | Ok a => k a
  | Throw r => Throw r
  end.

Notation "'run' x <- m ;; k" := (bind m (fun x => k))
  (at level 10, x name, m at level 99, k at level 200).

Notation "'throwIf' c 'then' r ;; k" := (if c then Throw r else k)
  (at level 10, c at level 99, r at level 9, k at level 200).

(** ** Buffers *)

(** A reference to a [Buffer] or [Uint8Array]. *)
Abbreviation Ref := nat.

(** The buffers allocated so far, by reference. *)
Abbreviation Heap := (list (list byte)).

Module Buffer.

(** A new buffer holding [bs]. *)
Definition alloc (h : Heap) (bs : list byte) : Heap * Ref :=
  (h ++ [bs], length h).

(** The bytes of buffer [r]. *)
Definition read (h : Heap) (r : Ref) : list byte := default [] (h !! r).

Definition zeros (bs : list byte) : list byte := (fun _ => x00) <$> bs.

(** [buf.fill(0)]. *)
Definition fill0 (h : Heap) (r : Ref) : Heap := alter zeros r h.

(** [Buffer.from(src)] and [new Uint8Array(src)] on a byte array: a new
    buffer with a copy of the bytes of [src]. *)
Definition copy (h : Heap) (src : Ref) : Heap * Ref := alloc h (read h src).

(** Every byte of [bs] is 0. *)
Definition blank (bs : list byte) : Prop := Forall (fun b => b = x00) bs.

End Buffer.

(** ** SecureKeyStore *)

(** [crypto.pbkdf2Sync], [crypto.createCipheriv] and
    [crypto.createDecipheriv] for 'aes-256-gcm'. *)
Class Crypto := {
  (* pbkdf2Sync(password, salt, 100000, 32, 'sha256') *)
  pbkdf2 : string -> list byte -> list byte;
  (* key, iv, plaintext: ciphertext and authentication tag *)
  gcmEncrypt : list byte -> list byte -> list byte -> list byte * list byte;
  (* key, iv, authentication tag, ciphertext: the plaintext, or None when
     [update]/[final] throws *)
  gcmDecrypt : list byte -> list byte -> list byte -> list byte -> option (list byte)
}.

(** Decryption under the key, IV and tag of an encryption gives back the
    plaintext. *)
Class CryptoCorrect (C : Crypto) : Prop :=
  gcm_decrypt_encrypt :
    forall key iv pt,
      gcmDecrypt key iv (gcmEncrypt key iv pt).2 (gcmEncrypt key iv pt).1 = Some pt.

(** A value of a [Record<string, any>] as the wallet writes it. *)
Inductive MetaValue :=
| MetaString (s : string)
| MetaNumber (n : Z).

Abbreviation Metadata := (list (string * MetaValue)).

(** [EncryptedKeyData], the document of one key file. *)
Record EncryptedKeyData := {
  version : Z;
  algorithm : string;
  iv : string;
  salt : string;
  authTag : string;
  encryptedKey : string;
  publicKey : string;
  createdAt : Z;
  metadata : option Metadata
}.

(** The directory [storePath], by file name, and the buffers of the
    process. *)
Record World := {
  files : gmap string EncryptedKeyData;
  heap : Heap
}.

Module SecureKeyStore.

Definition ALGORITHM : string := "aes-256-gcm".
Definition VERSION : Z := 1.

(** A character of the class [a-zA-Z0-9-_]. *)
Definition safeChar (c : ascii) : bool :=
  let n := N_of_ascii c in
  ((97 <=? n) && (n <=? 122) || (65 <=? n) && (n <=? 90)
   || (48 <=? n) && (n <=? 57) || (n =? 45) || (n =? 95))%N.

(** [walletId.replace(/[^a-zA-Z0-9-_]/g, '_')]. *)
Fixpoint sanitize (walletId : string) : string :=
  match walletId with
  | EmptyString => EmptyString
  | String c rest => String (if safeChar c then c else "_"%char) (sanitize rest)
  end.

(** The name of the key file of [walletId] inside [storePath]. *)
Definition getKeyFilePath (walletId : string) : string :=
  (sanitize walletId ++ ".encrypted.json")%string.

(** The local buffers of one [storeKey] call. *)
Record StoreKeyLocals := {
  derivedKey : Ref;
  secretKeyBuffer : Ref
}.

(** What [retrieveKey] returns; [decrypted] is the buffer its [cleanup]
    closure also holds. *)
Record KeyHandle := {
  secretKey : Ref;
  handlePublicKey : string;
  decrypted : Ref
}.

(** What [getWalletInfo] returns. *)
Record WalletInfo := {
  infoPublicKey : string;
  infoCreatedAt : Z;
  infoMetadata : option Metadata
}.

Section WithCrypto.
Context {crypto : Crypto}.

(** [storeKey]; [salt] and [iv] are the two [randomBytes] results and
    [now] is [Date.now()]. *)
Definition storeKey (w : World) (walletId : string) (secretKey : Ref)
    (publicKey password : string) (metadata : option Metadata)
    (salt iv : list byte) (now : Z) : World * StoreKeyLocals :=
  let '(h1, derivedKey) := Buffer.alloc (heap w) (pbkdf2 password salt) in
  let '(h2, secretKeyBuffer) := Buffer.copy h1 secretKey in
  let sealed :=
    gcmEncrypt (Buffer.read h2 derivedKey) iv (Buffer.read h2 secretKeyBuffer) in
  let encryptedData := {|
    version := VERSION;
    algorithm := ALGORITHM;
    iv := Hex.encode iv;
    salt := Hex.encode salt;
    authTag := Hex.encode sealed.2;
    encryptedKey := Hex.encode sealed.1;
    publicKey := publicKey;
    createdAt := now;
    metadata := metadata
  |} in
  let files' := <[getKeyFilePath walletId := encryptedData]> (files w) in
  let h3 := Buffer.fill0 h2 secretKeyBuffer in
  let h4 := Buffer.fill0 h3 derivedKey in
  ({| files := files'; heap := h4 |},
   {| derivedKey := derivedKey; secretKeyBuffer := secretKeyBuffer |}).

(** The document [storeKey] writes for the plaintext [plain]. *)
Definition sealedRecord (plain : list byte) (publicKey password : string)
    (metadata : option Metadata) (salt iv : list byte) (now : Z)
    : EncryptedKeyData :=
  let sealed := gcmEncrypt (pbkdf2 password salt) iv plain in
  {| version := VERSION;
     algorithm := ALGORITHM;
     iv := Hex.encode iv;
     salt := Hex.encode salt;
     authTag := Hex.encode sealed.2;
     encryptedKey := Hex.encode sealed.1;
     publicKey := publicKey;
     createdAt := now;
     metadata := metadata |}.

(** [retrieveKey]: the world it leaves, and the handle or the error
    thrown.  The heap shows the three buffers that the source names and
    wipes: [derivedKey], [decrypted] and [secretKey].  The Buffers that
    [decipher.update] and [decipher.final] return, from which
    [Buffer.concat] copies and which nothing wipes, are not represented. *)
Definition retrieveKey (w : World) (walletId password : string)
    : World * Result KeyHandle :=
  match files w !! getKeyFilePath walletId with
  | None => (w, Throw (WalletNotFound walletId))
  | Some encryptedData =>
      if negb (version encryptedData =? VERSION)
      then (w, Throw (UnsupportedVersion (version encryptedData)))
      else
        let salt := Hex.decode (salt encryptedData) in
        let iv := Hex.decode (iv encryptedData) in
        let authTag := Hex.decode (authTag encryptedData) in
        let encrypted := Hex.decode (encryptedKey encryptedData) in
        let '(h1, derivedKey) := Buffer.alloc (heap w) (pbkdf2 password salt) in
        match gcmDecrypt (Buffer.read h1 derivedKey) iv authTag encrypted with
        | Some plain =>
            let '(h2, decrypted) := Buffer.alloc h1 plain in
            let '(h3, secretKey) := Buffer.copy h2 decrypted in
            ({| files := files w; heap := Buffer.fill0 h3 derivedKey |},
             Ok {| secretKey := secretKey;
                   handlePublicKey := publicKey encryptedData;
                   decrypted := decrypted |})
        | None =>
            ({| files := files w; heap := Buffer.fill0 h1 derivedKey |},
             Throw InvalidPasswordOrCorrupted)
        end
  end.

(** The [cleanup] closure of a handle. *)
Definition cleanup (w : World) (k : KeyHandle) : World :=
  {| files := files w;
     heap := Buffer.fill0 (Buffer.fill0 (heap w) (decrypted k)) (secretKey k) |}.

(** [hasWallet]. *)
Definition hasWallet (w : World) (walletId : string) : bool :=
  bool_decide (is_Some (files w !! getKeyFilePath walletId)).

(** [getWalletInfo]. *)
Definition getWalletInfo (w : World) (walletId : string) : option WalletInfo :=
  match files w !! getKeyFilePath walletId with
  | None => None
  | Some data =>
      Some {| infoPublicKey := publicKey data;
              infoCreatedAt := createdAt data;
              infoMetadata := metadata data |}
  end.

(** [deleteWallet]: the file is overwritten with random bytes and then
    unlinked, so only the removal remains. *)
Definition deleteWallet (w : World) (walletId : string) : World * bool :=
  match files w !! getKeyFilePath walletId with
  | None => (w, false)
  | Some _ =>
      ({| files := delete (getKeyFilePath walletId) (files w); heap := heap w |},
       true)
  end.

(** [changePassword]. *)
Definition changePassword (w : World) (walletId oldPassword newPassword : string)
    (salt iv : list byte) (now : Z) : World * Result unit :=
  match retrieveKey w walletId oldPassword with
  | (w1, Throw r) => (w1, Throw r)
  | (w1, Ok k) =>
      let info := getWalletInfo w1 walletId in
      let '(w2, _) :=
        storeKey w1 walletId (secretKey k) (handlePublicKey k) newPassword
          (info ≫= infoMetadata) salt iv now in
      (cleanup w2 k, Ok tt)
  end.

End WithCrypto.

(** Every character of [s] is of the class [a-zA-Z0-9-_]. *)
Fixpoint allSafe (s : string) : bool :=
  match s with
  | EmptyString => true
  | String c rest => safeChar c && allSafe rest
  end.

Definition SUFFIX : string := ".encrypted.json".

(** [s.endsWith(suffix)]. *)
Fixpoint endsWith (s suffix : string) : bool :=
  if String.eqb s suffix then true
  else match s with
       | EmptyString => false
       | String _ rest => endsWith rest suffix
       end.

(** [s] without its first [n] characters. *)
Fixpoint skip (n : nat) (s : string) : string :=
  match n, s with
  | O, _ => s
  | S m, String _ rest => skip m rest
  | S _, EmptyString => EmptyString
  end.

(** [s.replace(pattern, replacement)] for a string pattern and a
    replacement without [$]: the first occurrence only. *)
Fixpoint replaceFirst (s pattern replacement : string) : string :=
  if String.prefix pattern s
  then (replacement ++ skip (String.length pattern) s)%string
  else match s with
       | EmptyString => EmptyString
       | String c rest => String c (replaceFirst rest pattern replacement)
       end.

(** [listWallets].  The order in which [readdirSync] lists a directory is
    not modelled: the result is to be read as a set of names. *)
Definition listWallets (w : World) : list string :=
  let names := (map_to_list (files w)).*1 in
  (fun f => replaceFirst f SUFFIX "") <$> filter (fun f => endsWith f SUFFIX = true) names.

(** Every file of the directory is the key file of some wallet id, as in a
    directory that only this class writes to. *)
Definition onlyKeyFiles (w : World) : Prop :=
  forall f, is_Some (files w !! f) -> exists walletId, f = getKeyFilePath walletId.

End SecureKeyStore.

(** ** RateLimiter *)

Module RateLimiter.

Definition windowMs : Z := 60000.

(** [canExecute]; [transactions] is the private map, [now] is
    [Date.now()]. *)
Definition canExecute (transactions : gmap string (list Z)) (agentId : string)
    (limit : number) (now : Z) : bool :=
  let txTimes := default [] (transactions !! agentId) in
  let recentTxs := filter (fun t => now - t < windowMs) txTimes in
  numLt (inject_Z (Z.of_nat (length recentTxs))) limit.

(** [recordTransaction]. *)
Definition recordTransaction (transactions : gmap string (list Z))
    (agentId : string) (now : Z) : gmap string (list Z) :=
  let txTimes := default [] (transactions !! agentId) ++ [now] in
  let txTimes := if (100 <? length txTimes)%nat then tail txTimes else txTimes in
  <[agentId := txTimes]> transactions.

(** [recordTransaction] once for each of [times], in order. *)
Definition recordAll (transactions : gmap string (list Z)) (agentId : string)
    (times : list Z) : gmap string (list Z) :=
  foldl (fun m t => recordTransaction m agentId t) transactions times.

(** No identity has more than 100 recorded timestamps. *)
Definition bounded (transactions : gmap string (list Z)) : Prop :=
  forall agentId txTimes,
    transactions !! agentId = Some txTimes -> (length txTimes <= 100)%nat.

End RateLimiter.

(** ** VolumeTracker *)

Module VolumeTracker.

(** An entry of [dailyVolume]: [{ amount, date }]. *)
Record DailyRecord := {
  amount : number;
  date : string
}.

(** [getVolume]; [now] is the time value of [new Date()]. *)
Definition getVolume (dailyVolume : gmap string DailyRecord) (agentId : string)
    (now : Z) : number :=
  let today := IsoDate.isoDate now in
  match dailyVolume !! agentId with
  | None => 0%Q
  | Some record =>
      if negb (String.eqb (date record) today) then 0%Q else amount record
  end.

(** [addVolume]. *)
Definition addVolume (dailyVolume : gmap string DailyRecord) (agentId : string)
    (amt : number) (now : Z) : gmap string DailyRecord :=
  let today := IsoDate.isoDate now in
  match dailyVolume !! agentId with
  | None => <[agentId := {| amount := amt; date := today |}]> dailyVolume
  | Some record =>
      if negb (String.eqb (date record) today)
      then <[agentId := {| amount := amt; date := today |}]> dailyVolume
      else <[agentId := {| amount := (amount record + amt)%Q; date := date record |}]>
             dailyVolume
  end.

(** [addVolume] once for each (amount, time) of [calls], in order. *)
Definition addAll (dailyVolume : gmap string DailyRecord) (agentId : string)
    (calls : list (number * Z)) : gmap string DailyRecord :=
  foldl (fun m call => addVolume m agentId call.1 call.2) dailyVolume calls.

End VolumeTracker.

(** ** ExecutionEngine *)

(** [AgentPermissions]. *)
Record AgentPermissions := {
  level : PermissionLevel;
  maxTransactionAmount : number;
  maxDailyVolume : number;
  allowedActions : list ActionType;
  allowedDestinations : option (list string);
  rateLimit : number;
  requiresApproval : option number
}.

(** A [web3.TransactionInstruction] supplied by the caller, kept opaque. *)
Inductive TransactionInstruction := Opaque (label : string).

Inductive Priority := low | normal | high.

(** [ActionParams]. *)
Record ActionParams := {
  action : ActionType;
  destination : option string;
  amount : option number;
  mint : option string;
  tokenAccount : option string;
  decimals : option number;
  instructions : option (list TransactionInstruction);
  memo : option string;
  priority : option Priority
}.

(** [ExecutionResult]; the fields [fee] and [confirmations] are never
    written by the engine. *)
Record ExecutionResult := {
  success : bool;
  signature : option string;
  error : option Reason;
  resultAction : ActionType;
  resultAmount : option number;
  timestamp : Z
}.

(** An instruction added to a transaction. *)
Inductive Instruction :=
| SystemTransfer (fromPubkey toPubkey : string) (lamports : Z)
| TokenTransfer (source dest owner : string) (units : Z)
| CreateAssociatedTokenAccount (payer ata owner mintKey : string)
| CallerInstruction (ix : TransactionInstruction).

(** A [web3.Transaction]. *)
Record Transaction := {
  txInstructions : list Instruction;
  recentBlockhash : option string;
  feePayer : option string
}.

(** The Solana client as the engine uses it; every member may throw. *)
Record Ledger := {
  (* Keypair.fromSecretKey(secretKey): the public key *)
  keypairFromSecretKey : list byte -> Result string;
  (* new web3.PublicKey(s) *)
  newPublicKey : string -> Result string;
  (* splToken.getAssociatedTokenAddress(mint, owner) *)
  getAssociatedTokenAddress : string -> string -> Result string;
  (* Math.floor(amount * LAMPORTS_PER_SOL) as SystemProgram.transfer encodes
     it: the call throws for a count that is not an unsigned 64-bit integer *)
  transferLamports : number -> Result Z;
  (* BigInt(amount * Math.pow(10, decimals)) *)
  scaledBigInt : number -> number -> Result Z;
  (* connection.getLatestBlockhash(): blockhash, lastValidBlockHeight *)
  getLatestBlockhash : Result (string * Z);
  (* transaction.sign(keypair); transaction.serialize() *)
  signAndSerialize : Transaction -> list byte -> Result (list byte);
  (* connection.sendRawTransaction(raw, { skipPreflight: false }) *)
  sendRawTransaction : list byte -> Result string;
  (* connection.confirmTransaction({ signature, blockhash, lastValidBlockHeight }) *)
  confirmTransaction : string -> string -> Z -> Result unit
}.

(** The calls the engine makes on its collaborators, in order. *)
Inductive Event :=
| CallRetrieveKey (agentId : string)
| CallCleanup
| CallRecordTransaction (agentId : string)
| CallAddVolume (agentId : string) (amt : number).

(** The readings of the clock during one [execute]. *)
Record Clock := {
  atRateCheck : Z;
  atVolumeCheck : Z;
  atRecord : Z;
  atAddVolume : Z;
  atResult : Z
}.

Module ExecutionEngine.

Definition LAMPORTS_PER_SOL : number := 1000000000%Q.

(** The private fields of the engine. *)
Record State := {
  permissions : gmap string AgentPermissions;
  rateLimiter : gmap string (list Z);
  volumeTracker : gmap string VolumeTracker.DailyRecord;
  executionLog : list ExecutionResult
}.

(** A newly constructed engine. *)
Definition new : State :=
  {| permissions := ∅; rateLimiter := ∅; volumeTracker := ∅; executionLog := [] |}.

(** [registerAgent]. *)
Definition registerAgent (e : State) (agentId : string) (perms : AgentPermissions)
    : State :=
  {| permissions := <[agentId := perms]> (permissions e);
     rateLimiter := rateLimiter e;
     volumeTracker := volumeTracker e;
     executionLog := executionLog e |}.

(** What [validatePermissions] returns: [{ allowed: true }] or
    [{ allowed: false, reason }]. *)
Inductive PermCheck :=
| Allowed
| Denied (reason : Reason).

(** [validatePermissions]. *)
Definition validatePermissions (e : State) (agentId : string) (params : ActionParams)
    : PermCheck :=
  match permissions e !! agentId with
  | None => Denied AgentNotRegistered
  | Some perms =>
      if bool_decide (level perms = READ_ONLY) then Denied ReadOnlyAgent
      else if negb (bool_decide (action params ∈ allowedActions perms))
      then Denied (ActionNotAllowed (action params))
      else
        let amount := orZero (amount params) in
        if numGt amount (maxTransactionAmount perms)
        then Denied (AmountExceedsMax amount (maxTransactionAmount perms))
        else
          match allowedDestinations perms, truthy (destination params) with
          | Some allowed, Some dest =>
              if negb (bool_decide (dest ∈ allowed))
              then Denied DestinationNotInWhitelist
              else Allowed
          | _, _ => Allowed
          end
  end.

(** [createResult]; [now] is [Date.now()]. *)
Definition createResult (success : bool) (action : ActionType)
    (error : option Reason) (data : option (string * number)) (now : Z)
    : ExecutionResult :=
  {| success := success;
     resultAction := action;
     error := error;
     signature := fst <$> data;
     resultAmount := snd <$> data;
     timestamp := now |}.

(** [buildTransaction]. *)
Definition buildTransaction (L : Ledger) (fromPubkey : string) (params : ActionParams)
    : Result Transaction :=
  let tx ixs := {| txInstructions := ixs; recentBlockhash := None; feePayer := None |} in
  match action params with
  | transfer_sol =>
      match truthy (destination params), amount params with
      | Some dest, Some amt =>
          run toPubkey <- newPublicKey L dest ;;
          run lamports <- transferLamports L amt ;;
          Ok (tx [SystemTransfer fromPubkey toPubkey lamports])
      | _, _ => Throw MissingTransferSolParams
      end
  | transfer_token =>
      match truthy (tokenAccount params), truthy (destination params),
            amount params, decimals params with
      | Some account, Some dest, Some amt, Some dec =>
          throwIf Qeq_bool amt 0 || Qeq_bool dec 0 then MissingTransferTokenParams ;;
          run source <- newPublicKey L account ;;
          run target <- newPublicKey L dest ;;
          run units <- scaledBigInt L amt dec ;;
          Ok (tx [TokenTransfer source target fromPubkey units])
      | _, _, _, _ => Throw MissingTransferTokenParams
      end
  | create_token_account =>
      match truthy (mint params) with
      | Some m =>
          run mintKey <- newPublicKey L m ;;
          run ata <- getAssociatedTokenAddress L mintKey fromPubkey ;;
          run mintKey' <- newPublicKey L m ;;
          Ok (tx [CreateAssociatedTokenAccount fromPubkey ata fromPubkey mintKey'])
      | None => Throw MissingMint
      end
  | custom =>
      match instructions params with
      | Some (ix :: ixs) => Ok (tx (CallerInstruction <$> ix :: ixs))
      | _ => Throw MissingInstructions
      end
  | close_account => Throw (UnknownAction close_account)
  end.

(** Steps 5 to 10 of [execute], between the retrieval of the key and the
    recording of the execution: the signature of the confirmed
    transaction, or the error thrown on the way. *)
Definition signAndSubmit (L : Ledger) (secretKey : list byte) (params : ActionParams)
    : Result string :=
  run publicKey <- keypairFromSecretKey L secretKey ;;
  run transaction <- buildTransaction L publicKey params ;;
  run latest <- getLatestBlockhash L ;;
  let transaction :=
    {| txInstructions := txInstructions transaction;
       recentBlockhash := Some latest.1;
       feePayer := Some publicKey |} in
  run raw <- signAndSerialize L transaction secretKey ;;
  run signature <- sendRawTransaction L raw ;;
  run confirmed <- confirmTransaction L signature latest.1 latest.2 ;;
  Ok signature.

(** What one [execute] call leaves behind and returns. *)
Record Outcome := {
  engine : State;
  world : World;
  result : ExecutionResult;
  trace : list Event
}.

Definition logged (e : State) (r : ExecutionResult) : State :=
  {| permissions := permissions e;
     rateLimiter := rateLimiter e;
     volumeTracker := volumeTracker e;
     executionLog := executionLog e ++ [r] |}.

Section WithCrypto.
Context {crypto : Crypto}.

(** [execute]. *)
Definition execute (e : State) (w : World) (L : Ledger) (clock : Clock)
    (agentId walletPassword : string) (params : ActionParams) : Outcome :=
  (* an early [return this.createResult(false, ...)] *)
  let rejected reason :=
    {| engine := e; world := w;
       result := createResult false (action params) (Some reason) None
                   (atResult clock);
       trace := [] |} in
  (* the [catch] block *)
  let caught w' reason events :=
    let r := createResult false (action params) (Some reason) None
               (atResult clock) in
    {| engine := logged e r; world := w'; result := r; trace := events |} in
  match validatePermissions e agentId params with
  | Denied reason => rejected reason
  | Allowed =>
      match permissions e !! agentId with
      | None => caught w (External "TypeError") []
      | Some perms =>
          if negb (RateLimiter.canExecute (rateLimiter e) agentId
                     (rateLimit perms) (atRateCheck clock))
          then rejected RateLimitExceeded
          else
            let currentVolume :=
              VolumeTracker.getVolume (volumeTracker e) agentId
                (atVolumeCheck clock) in
            let txAmount := orZero (amount params) in
            if numGt (currentVolume + txAmount)%Q (maxDailyVolume perms)
            then rejected
                   (DailyVolumeLimitExceeded currentVolume (maxDailyVolume perms))
            else
              match SecureKeyStore.retrieveKey w agentId walletPassword with
              | (w1, Throw reason) => caught w1 reason [CallRetrieveKey agentId]
              | (w1, Ok key) =>
                  let secret :=
                    Buffer.read (heap w1) (SecureKeyStore.secretKey key) in
                  match signAndSubmit L secret params with
                  | Throw reason =>
                      caught (SecureKeyStore.cleanup w1 key) reason
                        [CallRetrieveKey agentId; CallCleanup]
                  | Ok signature =>
                      let r := createResult true (action params) None
                                 (Some (signature, txAmount)) (atResult clock) in
                      {| engine :=
                           {| permissions := permissions e;
                              rateLimiter :=
                                RateLimiter.recordTransaction (rateLimiter e)
                                  agentId (atRecord clock);
                              volumeTracker :=
                                VolumeTracker.addVolume (volumeTracker e)
                                  agentId txAmount (atAddVolume clock);
                              executionLog := executionLog e ++ [r] |};
                         world := SecureKeyStore.cleanup w1 key;
                         result := r;
                         trace := [CallRetrieveKey agentId;
                                   CallRecordTransaction agentId;
                                   CallAddVolume agentId txAmount;
                                   CallCleanup] |}
                  end
              end
      end
  end.

End WithCrypto.

(** Every step between key retrieval and recording succeeded:
    [confirmTransaction] returned for the signature [signature]. *)
Definition confirmedSubmission (L : Ledger) (secretKey : list byte)
    (params : ActionParams) (signature : string) : Prop :=
  exists publicKey transaction latest raw,
    keypairFromSecretKey L secretKey = Ok publicKey
    /\ buildTransaction L publicKey params = Ok transaction
    /\ getLatestBlockhash L = Ok latest
    /\ signAndSerialize L
         {| txInstructions := txInstructions transaction;
            recentBlockhash := Some latest.1;
            feePayer := Some publicKey |} secretKey = Ok raw
    /\ sendRawTransaction L raw = Ok signature
    /\ confirmTransaction L signature latest.1 latest.2 = Ok tt.

(** The call passes the permission, rate and volume checks, retrieves the
    key and gets its transaction confirmed. *)
Definition reachesConfirmation `{Crypto} (e : State) (w : World) (L : Ledger)
    (clock : Clock) (agentId walletPassword : string) (params : ActionParams)
    : Prop :=
  exists perms w1 key signature,
    validatePermissions e agentId params = Allowed
    /\ permissions e !! agentId = Some perms
    /\ RateLimiter.canExecute (rateLimiter e) agentId (rateLimit perms)
         (atRateCheck clock) = true
    /\ numGt (VolumeTracker.getVolume (volumeTracker e) agentId (atVolumeCheck clock)
              + orZero (amount params))%Q (maxDailyVolume perms) = false
    /\ SecureKeyStore.retrieveKey w agentId walletPassword = (w1, Ok key)
    /\ confirmedSubmission L (Buffer.read (heap w1) (SecureKeyStore.secretKey key))
         params signature.

(** The first failing check of an ordered list of checks decides. *)
Fixpoint firstFailure (checks : list (bool * Reason)) : PermCheck :=
  match checks with
  | [] => Allowed
  | (fails, reason) :: rest => if fails then Denied reason else firstFailure rest
  end.

(** The destination is outside a configured allowlist. *)
Definition destinationRefused (perms : AgentPermissions) (params : ActionParams)
    : bool :=
  match allowedDestinations perms, truthy (destination params) with
  | Some allowed, Some dest => negb (bool_decide (dest ∈ allowed))
  | _, _ => false
  end.

(** [getDailyVolume]. *)
Definition getDailyVolume (e : State) (agentId : string) (now : Z) : number :=
  VolumeTracker.getVolume (volumeTracker e) agentId now.

(** [getRemainingAllowance]. *)
Definition getRemainingAllowance (e : State) (agentId : string) (now : Z) : number :=
  match permissions e !! agentId with
  | None => 0%Q
  | Some perms =>
      let used := VolumeTracker.getVolume (volumeTracker e) agentId now in
      max0 (maxDailyVolume perms - used)%Q
  end.

(** [getExecutionHistory]; the argument is not used. *)
Definition getExecutionHistory (e : State) (agentId : option string)
    : list ExecutionResult :=
  executionLog e.

End ExecutionEngine.

(** ** SecureAgenticWallet *)

(** [SecureWalletConfig]. *)
Record SecureWalletConfig := {
  agentId : string;
  name : string;
  walletPermissions : AgentPermissions
}.

Module SecureAgenticWallet.

(** The private fields of a wallet; its key store is the [World]. *)
Record Wallet := {
  executionEngine : ExecutionEngine.State;
  config : SecureWalletConfig;
  password : string
}.

(** What [canExecute] returns. *)
Inductive Preview :=
| PreviewAllowed
| PreviewDenied (reason : Reason).

Section WithCrypto.
Context {crypto : Crypto}.

(** [create]; [keypair] is the secret and public key of
    [Keypair.generate()], [salt] and [iv] are the random bytes drawn by
    [storeKey], [nowMeta] and [nowStore] the two clock readings.
    [keypair.secretKey] is a getter of web3.js that returns a new copy of the
    secret key at each read: the copy handed to [storeKey] and the copy that
    is zero-filled at the end are two buffers. *)
Definition create (w : World) (config : SecureWalletConfig) (password : string)
    (keypair : list byte * string) (salt iv : list byte) (nowMeta nowStore : Z)
    : World * Result Wallet :=
  if SecureKeyStore.hasWallet w (agentId config)
  then (w, Throw (WalletAlreadyExists (agentId config)))
  else
    let '(h1, firstRead) := Buffer.alloc (heap w) keypair.1 in
    let '(w2, _) :=
      SecureKeyStore.storeKey {| files := files w; heap := h1 |}
        (agentId config) firstRead keypair.2 password
        (Some [("name"%string, MetaString (name config));
               ("createdAt"%string, MetaNumber nowMeta)])
        salt iv nowStore in
    let executionEngine :=
      ExecutionEngine.registerAgent ExecutionEngine.new (agentId config)
        (walletPermissions config) in
    let '(h3, secondRead) := Buffer.alloc (heap w2) keypair.1 in
    ({| files := files w2; heap := Buffer.fill0 h3 secondRead |},
     Ok {| executionEngine := executionEngine;
           config := config;
           password := password |}).

(** The value of the field [key] of a metadata object. *)
Fixpoint field (m : Metadata) (key : string) : option MetaValue :=
  match m with
  | [] => None
  | (k, v) :: rest => if String.eqb k key then Some v else field rest key
  end.

(** [info.metadata?.name || agentId]; a number stored under [name] is kept
    as its decimal text. *)
Definition nameOr (metadata : option Metadata) (agentId : string) : string :=
  match metadata ≫= (fun m => field m "name") with
  | Some (MetaString EmptyString) => agentId
  | Some (MetaString s) => s
  | Some (MetaNumber n) =>
      if n =? 0 then agentId else NilZero.string_of_int (Z.to_int n)
  | None => agentId
  end.

(** [load]. *)
Definition load (w : World) (agentId : string) (permissions : AgentPermissions)
    (password : string) : World * Result Wallet :=
  if negb (SecureKeyStore.hasWallet w agentId)
  then (w, Throw (WalletNotFound agentId))
  else
    match SecureKeyStore.retrieveKey w agentId password with
    | (w1, Throw reason) => (w1, Throw reason)
    | (w1, Ok key) =>
        let w2 := SecureKeyStore.cleanup w1 key in
        match SecureKeyStore.getWalletInfo w2 agentId with
        | None => (w2, Throw (CouldNotGetWalletInfo agentId))
        | Some info =>
            (w2,
             Ok {| executionEngine :=
                     ExecutionEngine.registerAgent ExecutionEngine.new agentId
                       permissions;
                   config :=
                     {| agentId := agentId;
                        name := nameOr (SecureKeyStore.infoMetadata info) agentId;
                        walletPermissions := permissions |};
                   password := password |})
        end
    end.

(** [execute]: the wallet with the engine as the call leaves it, and
    the outcome. *)
Definition execute (wallet : Wallet) (w : World) (L : Ledger) (clock : Clock)
    (params : ActionParams) : Wallet * ExecutionEngine.Outcome :=
  let out :=
    ExecutionEngine.execute (executionEngine wallet) w L clock
      (agentId (config wallet)) (password wallet) params in
  ({| executionEngine := ExecutionEngine.engine out;
      config := config wallet;
      password := password wallet |}, out).

End WithCrypto.

(** [getRemainingAllowance]. *)
Definition getRemainingAllowance (wallet : Wallet) (now : Z) : number :=
  ExecutionEngine.getRemainingAllowance (executionEngine wallet)
    (agentId (config wallet)) now.

(** [canExecute]; [now] is the clock reading inside
    [getRemainingAllowance]. *)
Definition canExecute (wallet : Wallet) (params : ActionParams) (now : Z) : Preview :=
  let perms := walletPermissions (config wallet) in
  if negb (bool_decide (action params ∈ allowedActions perms))
  then PreviewDenied (ActionNotAllowed (action params))
  else
    let amount := orZero (amount params) in
    if numGt amount (maxTransactionAmount perms)
    then PreviewDenied (AmountExceedsMax amount (maxTransactionAmount perms))
    else
      let remaining := getRemainingAllowance wallet now in
      if numGt amount remaining
      then PreviewDenied (AmountExceedsRemaining amount remaining)
      else
        match allowedDestinations perms, truthy (destination params) with
        | Some allowed, Some dest =>
            if negb (bool_decide (dest ∈ allowed))
            then PreviewDenied DestinationNotWhitelisted
            else PreviewAllowed
        | _, _ => PreviewAllowed
        end.

(** [getAddress]: [info?.publicKey || '']. *)
Definition getAddress `{Crypto} (wallet : Wallet) (w : World) : string :=
  match SecureKeyStore.getWalletInfo w (agentId (config wallet)) with
  | Some info => SecureKeyStore.infoPublicKey info
  | None => EmptyString
  end.

(** [transferSOL]. *)
Definition transferSOL `{Crypto} (wallet : Wallet) (w : World) (L : Ledger)
    (clock : Clock) (destination : string) (amount : number)
    : Wallet * ExecutionEngine.Outcome :=
  execute wallet w L clock
    {| action := transfer_sol; destination := Some destination;
       amount := Some amount; mint := None; tokenAccount := None;
       decimals := None; instructions := None; memo := None; priority := None |}.

(** [transferToken]. *)
Definition transferToken `{Crypto} (wallet : Wallet) (w : World) (L : Ledger)
    (clock : Clock) (tokenAccount destination : string) (amount decimals : number)
    : Wallet * ExecutionEngine.Outcome :=
  execute wallet w L clock
    {| action := transfer_token; destination := Some destination;
       amount := Some amount; mint := None; tokenAccount := Some tokenAccount;
       decimals := Some decimals; instructions := None; memo := None;
       priority := None |}.

(** [getDailyVolume]. *)
Definition getDailyVolume (wallet : Wallet) (now : Z) : number :=
  ExecutionEngine.getDailyVolume (executionEngine wallet) (agentId (config wallet)) now.

(** [getExecutionHistory]. *)
Definition getExecutionHistory (wallet : Wallet) : list ExecutionResult :=
  ExecutionEngine.getExecutionHistory (executionEngine wallet)
    (Some (agentId (config wallet))).

(** What [getVolumeStats] returns. *)
Record VolumeStats := {
  dailyVolume : number;
  remaining : number;
  maxDaily : number
}.

(** [getVolumeStats]. *)
Definition getVolumeStats (wallet : Wallet) (now : Z) : VolumeStats :=
  let remaining := getRemainingAllowance wallet now in
  {| dailyVolume := (maxDailyVolume (walletPermissions (config wallet)) - remaining)%Q;
     remaining := remaining;
     maxDaily := maxDailyVolume (walletPermissions (config wallet)) |}.

(** The argument of [createDefaultPermissions]. *)
Inductive AgentKind := trading | liquidity | monitor | admin.

(** [createDefaultPermissions]. *)
Definition createDefaultPermissions (kind : AgentKind) : AgentPermissions :=
  match kind with
  | trading =>
      {| level := STANDARD;
         maxTransactionAmount := (5 # 10)%Q;
         maxDailyVolume := 5%Q;
         allowedActions := [transfer_sol; transfer_token];
         allowedDestinations := None;
         rateLimit := 30%Q;
         requiresApproval := Some 1%Q |}
  | liquidity =>
      {| level := ELEVATED;
         maxTransactionAmount := 2%Q;
         maxDailyVolume := 20%Q;
         allowedActions := [transfer_sol; transfer_token; create_token_account];
         allowedDestinations := None;
         rateLimit := 20%Q;
         requiresApproval := Some 5%Q |}
  | monitor =>
      {| level := READ_ONLY;
         maxTransactionAmount := 0%Q;
         maxDailyVolume := 0%Q;
         allowedActions := [];
         allowedDestinations := None;
         rateLimit := 100%Q;
         requiresApproval := None |}
  | admin =>
      {| level := ADMIN;
         maxTransactionAmount := 10%Q;
         maxDailyVolume := 100%Q;
         allowedActions :=
           [transfer_sol; transfer_token; create_token_account; close_account; custom];
         allowedDestinations := None;
         rateLimit := 60%Q;
         requiresApproval := Some 10%Q |}
  end.

End SecureAgenticWallet.

(** ** A toy instance of the cryptographic interface

    The key is derived by concatenation, the ciphertext is the plaintext
    reversed and the tag is the key; decryption checks the tag.  It serves
    to run the model on concrete inputs. *)

Module Toy.

#[export] Instance crypto : Crypto := {|
  pbkdf2 password salt := salt ++ [x2a];
  gcmEncrypt key iv pt := (rev pt, key);
  gcmDecrypt key iv tag ct :=
    if bool_decide (tag = key) then Some (rev ct) else None
|}.

(** The lamports of an amount of SOL, for counts that fit 64 bits. *)
Definition toLamports (a : number) : Result Z :=
  let n := Qfloor (a * ExecutionEngine.LAMPORTS_PER_SOL)%Q in
  if (n <? 0) || (2 ^ 64 <=? n)
  then Throw (External "RangeError")
  else Ok n.

(** A client whose calls succeed for amounts that can be encoded. *)
Definition ledger : Ledger := {|
  keypairFromSecretKey _ := Ok "PUB"%string;
  newPublicKey s := Ok s;
  getAssociatedTokenAddress _ _ := Ok "ATA"%string;
  transferLamports a := toLamports a;
  scaledBigInt a _ := Ok (Qfloor a);
  getLatestBlockhash := Ok ("HASH"%string, 7);
  signAndSerialize _ _ := Ok [x01];
  sendRawTransaction _ := Ok "SIG"%string;
  confirmTransaction _ _ _ := Ok tt
|}.

(** A client on which confirmation times out. *)
Definition unconfirmed : Ledger := {|
  keypairFromSecretKey _ := Ok "PUB"%string;
  newPublicKey s := Ok s;
  getAssociatedTokenAddress _ _ := Ok "ATA"%string;
  transferLamports a := toLamports a;
  scaledBigInt a _ := Ok (Qfloor a);
  getLatestBlockhash := Ok ("HASH"%string, 7);
  signAndSerialize _ _ := Ok [x01];
  sendRawTransaction _ := Ok "SIG"%string;
  confirmTransaction _ _ _ := Throw (External "block height exceeded")
|}.

Definition clock (t : Z) : Clock :=
  {| atRateCheck := t; atVolumeCheck := t; atRecord := t; atAddVolume := t;
     atResult := t |}.

Definition emptyWorld : World := {| files := ∅; heap := [] |}.

(** No key file yet, and one buffer: a secret key held by the caller. *)
Definition oneKey : World := {| files := ∅; heap := [[x01; x02; x03]] |}.

(** A store that already holds a key under the id ["bot"]. *)
Definition holding : World :=
  (SecureKeyStore.storeKey oneKey "bot" 0 "OLD" "pw" None [x0a] [x0b] 1).1.

Definition transfer (dest : string) (amt : number) : ActionParams :=
  {| action := transfer_sol; destination := Some dest; amount := Some amt;
     mint := None; tokenAccount := None; decimals := None;
     instructions := None; memo := None; priority := None |}.

(** A parameter object without [amount]. *)
Definition customCall : ActionParams :=
  {| action := custom; destination := None; amount := None;
     mint := None; tokenAccount := None; decimals := None;
     instructions := Some [Opaque "ix"]; memo := None; priority := None |}.

Definition standard : AgentPermissions :=
  {| level := STANDARD;
     maxTransactionAmount := (5 # 100)%Q;
     maxDailyVolume := (20 # 100)%Q;
     allowedActions := [transfer_sol; custom];
     allowedDestinations := None;
     rateLimit := 10%Q;
     requiresApproval := None |}.

(** Transfers go to ["ALICE"] only; 1 SOL per transaction, 0.2 per day. *)
Definition restricted : AgentPermissions :=
  {| level := STANDARD;
     maxTransactionAmount := 1%Q;
     maxDailyVolume := (2 # 10)%Q;
     allowedActions := [transfer_sol];
     allowedDestinations := Some ["ALICE"%string];
     rateLimit := 10%Q;
     requiresApproval := None |}.

(** One SOL per transaction and one SOL per day. *)
Definition oneADay : AgentPermissions :=
  {| level := STANDARD;
     maxTransactionAmount := 1%Q;
     maxDailyVolume := 1%Q;
     allowedActions := [transfer_sol];
     allowedDestinations := None;
     rateLimit := 10%Q;
     requiresApproval := None |}.

(** A read-only profile that lists an action. *)
Definition readOnly : AgentPermissions :=
  {| level := READ_ONLY;
     maxTransactionAmount := 1%Q;
     maxDailyVolume := 1%Q;
     allowedActions := [transfer_sol];
     allowedDestinations := None;
     rateLimit := 10%Q;
     requiresApproval := None |}.

(** Both amount limits are 0. *)
Definition zeroLimits : AgentPermissions :=
  {| level := STANDARD;
     maxTransactionAmount := 0%Q;
     maxDailyVolume := 0%Q;
     allowedActions := [custom];
     allowedDestinations := None;
     rateLimit := 10%Q;
     requiresApproval := None |}.

(** As [zeroLimits], with one transaction per minute. *)
Definition oncePerMinute : AgentPermissions :=
  {| level := STANDARD;
     maxTransactionAmount := 0%Q;
     maxDailyVolume := 0%Q;
     allowedActions := [custom];
     allowedDestinations := None;
     rateLimit := 1%Q;
     requiresApproval := None |}.

(** As [zeroLimits], with an allowlist of destinations. *)
Definition zeroLimitsAllowlist : AgentPermissions :=
  {| level := STANDARD;
     maxTransactionAmount := 0%Q;
     maxDailyVolume := 0%Q;
     allowedActions := [custom];
     allowedDestinations := Some ["ALICE"%string];
     rateLimit := 10%Q;
     requiresApproval := None |}.

(** As [zeroLimits], with a negative per-transaction limit. *)
Definition negativeCap : AgentPermissions :=
  {| level := STANDARD;
     maxTransactionAmount := (-1)%Q;
     maxDailyVolume := 0%Q;
     allowedActions := [custom];
     allowedDestinations := None;
     rateLimit := 10%Q;
     requiresApproval := None |}.

(** As [zeroLimits], with a negative daily limit. *)
Definition negativeDaily : AgentPermissions :=
  {| level := STANDARD;
     maxTransactionAmount := 0%Q;
     maxDailyVolume := (-1)%Q;
     allowedActions := [custom];
     allowedDestinations := None;
     rateLimit := 10%Q;
     requiresApproval := None |}.

(** [customCall] with a destination. *)
Definition customCallTo (dest : string) : ActionParams :=
  {| action := custom; destination := Some dest; amount := None;
     mint := None; tokenAccount := None; decimals := None;
     instructions := Some [Opaque "ix"]; memo := None; priority := None |}.

(** An engine with the one agent ["bot"]. *)
Definition engineOf (perms : AgentPermissions) : ExecutionEngine.State :=
  ExecutionEngine.registerAgent ExecutionEngine.new "bot" perms.

(** The wallet of ["bot"] as [create] returns it, and its store. *)
Definition created (perms : AgentPermissions)
    : World * Result SecureAgenticWallet.Wallet :=
  SecureAgenticWallet.create emptyWorld
    {| agentId := "bot"; name := "Bot"; walletPermissions := perms |}
    "pw" ([x01; x02; x03], "PUB"%string) [x0a] [x0b] 1 2.

(** A request to close an account. *)
Definition closeAccount : ActionParams :=
  {| action := close_account; destination := None; amount := None;
     mint := None; tokenAccount := None; decimals := None;
     instructions := None; memo := None; priority := None |}.

(** The configuration of the wallet ["bot"]. *)
Definition configOf (perms : AgentPermissions) : SecureWalletConfig :=
  {| agentId := "bot"; name := "Bot"; walletPermissions := perms |}.

(** The wallet ["bot"] with a new engine. *)
Definition walletOf (perms : AgentPermissions) : SecureAgenticWallet.Wallet :=
  {| SecureAgenticWallet.executionEngine := engineOf perms;
     SecureAgenticWallet.config := configOf perms;
     SecureAgenticWallet.password := "pw" |}.

End Toy.

(** * Properties *)

(** ** Running the model *)

Example isoDate_epoch : IsoDate.isoDate 0 = "1970-01-01"%string.
Proof. reflexivity. Qed.

Example isoDate_leap_day : IsoDate.isoDate 1709164800000 = "2024-02-29"%string.
Proof. reflexivity. Qed.

Example isoDate_before_epoch : IsoDate.isoDate (-1) = "1969-12-31"%string.
Proof. reflexivity. Qed.

Example isoDate_recent : IsoDate.isoDate 1793491200000 = "2026-11-01"%string.
Proof. reflexivity. Qed.

Example hex_encode_sample : Hex.encode [x00; x0f; xa5; xff] = "000fa5ff"%string.
Proof. reflexivity. Qed.

Example hex_decode_sample :
  Hex.decode "000FA5ffzz12"%string = [x00; x0f; xa5; xff].
Proof. reflexivity. Qed.

Example sanitize_sample :
  SecureKeyStore.getKeyFilePath "bot/1 a-b_C"%string
  = "bot_1_a-b_C.encrypted.json"%string.
Proof. reflexivity. Qed.

(** ** Hexadecimal encoding *)

Lemma hex_decode_encode_cons (b : byte) (rest : list byte) :
  Hex.decode (Hex.encode (b :: rest)) = b :: Hex.decode (Hex.encode rest).
Proof. destruct b; reflexivity. Qed.

Lemma hex_decode_encode (bs : list byte) : Hex.decode (Hex.encode bs) = bs.
Proof.
  induction bs as [|b rest IH]; [reflexivity|].
  rewrite hex_decode_encode_cons. by rewrite IH.
Qed.

(** ** Buffers *)

Section BufferFacts.
Implicit Types (h : Heap) (r : Ref) (bs : list byte).

Lemma read_alloc_new h bs : Buffer.read (Buffer.alloc h bs).1 (length h) = bs.
Proof.
  unfold Buffer.read, Buffer.alloc; simpl.
  by rewrite lookup_app_r, Nat.sub_diag by lia.
Qed.

Lemma read_alloc_old h bs r :
  (r < length h)%nat -> Buffer.read (Buffer.alloc h bs).1 r = Buffer.read h r.
Proof.
  intros Hr. unfold Buffer.read, Buffer.alloc; simpl.
  by rewrite lookup_app_l.
Qed.

Lemma length_alloc h bs : length (Buffer.alloc h bs).1 = S (length h).
Proof. unfold Buffer.alloc; simpl. rewrite length_app; simpl; lia. Qed.

Lemma length_fill0 h r : length (Buffer.fill0 h r) = length h.
Proof. apply length_alter. Qed.

Lemma read_fill0_same h r :
  Buffer.read (Buffer.fill0 h r) r = Buffer.zeros (Buffer.read h r).
Proof.
  unfold Buffer.read, Buffer.fill0.
  rewrite list_lookup_alter_eq. by destruct (h !! r).
Qed.

Lemma read_fill0_other h r r' :
  r <> r' -> Buffer.read (Buffer.fill0 h r) r' = Buffer.read h r'.
Proof.
  intros Hne. unfold Buffer.read, Buffer.fill0.
  by rewrite list_lookup_alter_ne.
Qed.

Lemma zeros_zeros bs : Buffer.zeros (Buffer.zeros bs) = Buffer.zeros bs.
Proof. unfold Buffer.zeros. by rewrite <- list_fmap_compose. Qed.

Lemma length_zeros bs : length (Buffer.zeros bs) = length bs.
Proof. apply length_fmap. Qed.

End BufferFacts.

(** ** SecureKeyStore *)

Section KeyStoreFacts.
Context {crypto : Crypto}.
Import SecureKeyStore.

(** [storeKey] in closed form, for a valid reference [secretKey]. *)
Lemma storeKey_unfold w walletId secretKey publicKey password metadata salt iv now :
  (secretKey < length (heap w))%nat ->
  let n := length (heap w) in
  let plain := Buffer.read (heap w) secretKey in
  storeKey w walletId secretKey publicKey password metadata salt iv now
  = ({| files := <[getKeyFilePath walletId :=
                     sealedRecord plain publicKey password metadata salt iv now]>
                   (files w);
        heap := Buffer.fill0
                  (Buffer.fill0 (heap w ++ [pbkdf2 password salt] ++ [plain]) (S n)) n |},
     {| derivedKey := n; secretKeyBuffer := S n |}).
Proof.
  intros Hvalid n plain. unfold storeKey, Buffer.copy, sealedRecord.
  cbn [Buffer.alloc fst snd].
  assert (Hplain : Buffer.read (heap w ++ [pbkdf2 password salt]) secretKey = plain).
  { unfold Buffer.read. by rewrite lookup_app_l. }
  assert (Hkey : Buffer.read ((heap w ++ [pbkdf2 password salt]) ++ [plain])
                   (length (heap w)) = pbkdf2 password salt).
  { unfold Buffer.read. rewrite <- (assoc_L (++)).
    by rewrite lookup_app_r, Nat.sub_diag by lia. }
  assert (Hcopy : Buffer.read ((heap w ++ [pbkdf2 password salt]) ++ [plain])
                    (length (heap w ++ [pbkdf2 password salt])) = plain).
  { unfold Buffer.read. by rewrite lookup_app_r, Nat.sub_diag by lia. }
  rewrite Hplain, Hkey, Hcopy.
  rewrite length_app. cbn [length]. rewrite Nat.add_1_r.
  by rewrite <- (assoc_L (++)).
Qed.

(** The buffers of the heap after [storeKey]: the old ones are as they
    were, the two new ones are zero-filled. *)
Lemma storeKey_heap w walletId secretKey publicKey password metadata salt iv now :
  (secretKey < length (heap w))%nat ->
  let out := storeKey w walletId secretKey publicKey password metadata salt iv now in
  (forall r, (r < length (heap w))%nat ->
             Buffer.read (heap out.1) r = Buffer.read (heap w) r)
  /\ Buffer.read (heap out.1) (derivedKey out.2)
     = Buffer.zeros (pbkdf2 password salt)
  /\ Buffer.read (heap out.1) (secretKeyBuffer out.2)
     = Buffer.zeros (Buffer.read (heap w) secretKey).
Proof.
  intros Hvalid out. subst out. rewrite storeKey_unfold by done.
  cbn [fst snd heap derivedKey secretKeyBuffer].
  set (n := length (heap w)). set (plain := Buffer.read (heap w) secretKey).
  repeat split.
  - intros r Hr.
    rewrite read_fill0_other, read_fill0_other by (unfold n; lia).
    unfold Buffer.read. by rewrite lookup_app_l.
  - rewrite read_fill0_same, read_fill0_other by lia.
    unfold Buffer.read, n. by rewrite lookup_app_r, Nat.sub_diag by lia.
  - rewrite read_fill0_other, read_fill0_same by lia.
    unfold Buffer.read, n.
    rewrite lookup_app_r by lia.
    by replace (S (length (heap w)) - length (heap w))%nat with 1%nat by lia.
Qed.

(** [retrieveKey] on a record written by [storeKey], under the same
    password. *)
Lemma retrieveKey_sealed `{!CryptoCorrect crypto} w walletId plain publicKey password
    metadata salt iv now :
  files w !! getKeyFilePath walletId
    = Some (sealedRecord plain publicKey password metadata salt iv now) ->
  let n := length (heap w) in
  retrieveKey w walletId password
  = ({| files := files w;
        heap := Buffer.fill0 (heap w ++ [pbkdf2 password salt] ++ [plain] ++ [plain]) n |},
     Ok {| secretKey := S (S n); handlePublicKey := publicKey; decrypted := S n |}).
Proof.
  intros Hfile n. unfold retrieveKey. rewrite Hfile.
  unfold sealedRecord.
  cbn -[Hex.encode Hex.decode Buffer.read Buffer.fill0 Buffer.copy length app].
  rewrite !hex_decode_encode.
  assert (Hkey : Buffer.read (heap w ++ [pbkdf2 password salt]) (length (heap w))
                 = pbkdf2 password salt).
  { unfold Buffer.read. by rewrite lookup_app_r, Nat.sub_diag by lia. }
  rewrite Hkey, gcm_decrypt_encrypt.
  unfold Buffer.copy. cbn [Buffer.alloc fst snd].
  assert (Hdec : Buffer.read ((heap w ++ [pbkdf2 password salt]) ++ [plain])
                   (length (heap w ++ [pbkdf2 password salt])) = plain).
  { unfold Buffer.read. by rewrite lookup_app_r, Nat.sub_diag by lia. }
  rewrite Hdec. rewrite !length_app. cbn [length].
  rewrite <- !(assoc_L (++)). subst n.
  by replace (length (heap w) + 1 + 1)%nat with (S (S (length (heap w)))) by lia;
     replace (length (heap w) + 1)%nat with (S (length (heap w))) by lia.
Qed.

(** What [retrieveKey] finds after [storeKey] under the same id and
    password. *)
Lemma storeKey_retrieveKey_facts `{!CryptoCorrect crypto} w walletId secretKey
    publicKey password metadata salt iv now :
  (secretKey < length (heap w))%nat ->
  exists key w',
    retrieveKey
      (storeKey w walletId secretKey publicKey password metadata salt iv now).1
      walletId password = (w', Ok key)
    /\ Buffer.read (heap w') (SecureKeyStore.secretKey key)
       = Buffer.read (heap w) secretKey
    /\ handlePublicKey key = publicKey.
Proof.
  intros Hvalid. rewrite storeKey_unfold by done.
  cbn [fst].
  set (plain := Buffer.read (heap w) secretKey).
  set (stored := {| files := _; heap := _ |}).
  assert (Hfile : files stored !! getKeyFilePath walletId
                  = Some (sealedRecord plain publicKey password metadata salt iv now)).
  { subst stored. cbn [files]. apply lookup_insert_eq. }
  eexists _, _. split; [exact (retrieveKey_sealed _ _ _ _ _ _ _ _ _ Hfile)|].
  cbn [heap SecureKeyStore.secretKey handlePublicKey]. split; [|done].
  rewrite read_fill0_other by lia.
  unfold Buffer.read.
  rewrite lookup_app_r by lia.
  by replace (S (S (length (heap stored))) - length (heap stored))%nat
    with 2%nat by lia.
Qed.

(** C8. Round trip: [storeKey] followed by [retrieveKey] under the same
    id and password succeeds, and the secret key of the handle holds,
    before [cleanup] is called, exactly the bytes of the buffer that was
    stored (whether or not the id was present before); the public key
    comes back as well. *)
Theorem storeKey_retrieveKey_roundtrip `{!CryptoCorrect crypto} w walletId secretKey
    publicKey password metadata salt iv now :
  (secretKey < length (heap w))%nat ->
  let stored :=
    (storeKey w walletId secretKey publicKey password metadata salt iv now).1 in
  exists key w',
    retrieveKey stored walletId password = (w', Ok key)
    /\ Buffer.read (heap w') (SecureKeyStore.secretKey key)
       = Buffer.read (heap w) secretKey
    /\ handlePublicKey key = publicKey.
Proof.
  intros Hvalid stored. subst stored. by apply storeKey_retrieveKey_facts.
Qed.

(** C7, as the code has it.  When [storeKey] returns, its own copy of the
    plaintext ([secretKeyBuffer]) and the derived key are zero-filled;
    both are buffers allocated by the call, distinct from the buffer of the
    caller, and the buffer of the caller still holds the secret key. *)
Theorem storeKey_zeroes_its_own_buffers w walletId secretKey publicKey password
    metadata salt iv now :
  (secretKey < length (heap w))%nat ->
  let out := storeKey w walletId secretKey publicKey password metadata salt iv now in
  Buffer.read (heap out.1) (secretKeyBuffer out.2)
    = Buffer.zeros (Buffer.read (heap w) secretKey)
  /\ Buffer.read (heap out.1) (derivedKey out.2) = Buffer.zeros (pbkdf2 password salt)
  /\ secretKeyBuffer out.2 <> secretKey
  /\ derivedKey out.2 <> secretKey
  /\ Buffer.read (heap out.1) secretKey = Buffer.read (heap w) secretKey.
Proof.
  intros Hvalid out.
  destruct (storeKey_heap w walletId secretKey publicKey password metadata salt iv
              now Hvalid) as (Hold & Hkey & Hcopy).
  fold out in Hold, Hkey, Hcopy.
  repeat split; [done|done| | |by apply Hold];
    subst out; rewrite storeKey_unfold by done;
    cbn [snd secretKeyBuffer derivedKey]; lia.
Qed.

(** [storeKey] leaves every other file alone. *)
Lemma storeKey_other_files w walletId secretKey publicKey password metadata salt iv
    now path :
  path <> getKeyFilePath walletId ->
  files (storeKey w walletId secretKey publicKey password metadata salt iv now).1
    !! path = files w !! path.
Proof.
  intros Hne. unfold storeKey, Buffer.copy. cbn [Buffer.alloc fst snd files].
  by rewrite lookup_insert_ne.
Qed.

(** C6, as the code has it.  [storeKey] makes no existence check: it
    writes the new document at the path of the id, whatever was there, and
    touches no other file ([changePassword] relies on this).  The refusal
    is made by [SecureAgenticWallet.create], which throws
    [Wallet already exists] before any key is generated or stored and leaves
    the store as it was. *)
Theorem storeKey_overwrites_create_refuses w walletId secretKey publicKey password
    metadata salt iv now :
  (secretKey < length (heap w))%nat ->
  SecureKeyStore.hasWallet w walletId = true ->
  let stored :=
    (storeKey w walletId secretKey publicKey password metadata salt iv now).1 in
  files stored !! getKeyFilePath walletId
    = Some (sealedRecord (Buffer.read (heap w) secretKey) publicKey password
              metadata salt iv now)
  /\ (forall path, path <> getKeyFilePath walletId ->
                   files stored !! path = files w !! path)
  /\ (forall config keypair nowMeta,
        agentId config = walletId ->
        SecureAgenticWallet.create w config password keypair salt iv nowMeta now
        = (w, Throw (WalletAlreadyExists walletId))).
Proof.
  intros Hvalid Hpresent stored. repeat split.
  - subst stored. rewrite storeKey_unfold by done. cbn [fst files].
    apply lookup_insert_eq.
  - intros path Hne. by apply storeKey_other_files.
  - intros config keypair nowMeta <-. unfold SecureAgenticWallet.create.
    by rewrite Hpresent.
Qed.

(** Two ids with the same sanitized form have the same key file. *)
Lemma getKeyFilePath_sanitize id1 id2 :
  sanitize id1 = sanitize id2 -> getKeyFilePath id1 = getKeyFilePath id2.
Proof. unfold getKeyFilePath. by intros ->. Qed.

(** C10. The store is keyed by the sanitized id.  For two distinct ids
    with the same sanitized form, [storeKey], [hasWallet], [getWalletInfo]
    and [deleteWallet] act alike, and so does [retrieveKey] whenever the
    file exists; after [storeKey] under the first id, [hasWallet] holds of
    the second and [retrieveKey] under the second id with the same password
    returns the secret key stored under the first. *)
Theorem sanitized_ids_share_a_record `{!CryptoCorrect crypto} w id1 id2 secretKey
    publicKey password metadata salt iv now :
  id1 <> id2 ->
  sanitize id1 = sanitize id2 ->
  (secretKey < length (heap w))%nat ->
  (storeKey w id1 secretKey publicKey password metadata salt iv now
   = storeKey w id2 secretKey publicKey password metadata salt iv now
   /\ hasWallet w id1 = hasWallet w id2
   /\ getWalletInfo w id1 = getWalletInfo w id2
   /\ deleteWallet w id1 = deleteWallet w id2
   /\ (hasWallet w id1 = true ->
       retrieveKey w id1 password = retrieveKey w id2 password))
  /\ let stored :=
       (storeKey w id1 secretKey publicKey password metadata salt iv now).1 in
     hasWallet stored id2 = true
     /\ exists key w',
          retrieveKey stored id2 password = (w', Ok key)
          /\ Buffer.read (heap w') (SecureKeyStore.secretKey key)
             = Buffer.read (heap w) secretKey.
Proof.
  intros _ Hsame Hvalid.
  pose proof (getKeyFilePath_sanitize _ _ Hsame) as Hpath.
  split; [repeat split|].
  - unfold storeKey. by rewrite Hpath.
  - unfold hasWallet. by rewrite Hpath.
  - unfold getWalletInfo. by rewrite Hpath.
  - unfold deleteWallet. by rewrite Hpath.
  - unfold hasWallet, retrieveKey. rewrite Hpath.
    destruct (files w !! getKeyFilePath id2); [done|].
    intros Hsome. apply bool_decide_eq_true in Hsome. by destruct Hsome.
  - intros stored.
    assert (Hstored : stored
              = (storeKey w id2 secretKey publicKey password metadata salt iv now).1).
    { subst stored. unfold storeKey. by rewrite Hpath. }
    split.
    + rewrite Hstored, storeKey_unfold by done. unfold hasWallet. cbn [fst files].
      rewrite lookup_insert_eq. by apply bool_decide_eq_true.
    + rewrite Hstored.
      destruct (storeKey_retrieveKey_facts w id2 secretKey publicKey password
                  metadata salt iv now Hvalid) as (key & w' & Hget & Hbytes & _).
      by exists key, w'.
Qed.

End KeyStoreFacts.

(** *** On concrete inputs *)

Lemma toy_crypto_correct : CryptoCorrect Toy.crypto.
Proof.
  intros key iv pt. cbn. rewrite bool_decide_eq_true_2 by done.
  by rewrite rev_involutive.
Defined.

Section KeyStoreExamples.
Import SecureKeyStore.
#[local] Existing Instance Toy.crypto.
Open Scope string_scope.

Lemma storeKey_retrieveKey_roundtrip_witness :
  exists key w',
    retrieveKey (storeKey Toy.oneKey "bot" 0 "PUB" "pw" None [x0a] [x0b] 1).1
      "bot" "pw" = (w', Ok key)
    /\ Buffer.read (heap w') (secretKey key) = [x01; x02; x03]
    /\ handlePublicKey key = "PUB".
Proof.
  apply (@storeKey_retrieveKey_roundtrip Toy.crypto toy_crypto_correct Toy.oneKey
           "bot" 0%nat "PUB" "pw" None [x0a] [x0b] 1).
  simpl. lia.
Defined.

(** C7, as stated, fails: after [storeKey] the buffer the caller passed
    in still holds the secret key. *)
Lemma storeKey_caller_buffer_not_zeroed :
  let out := storeKey Toy.oneKey "bot" 0 "PUB" "pw" None [x0a] [x0b] 1 in
  Buffer.read (heap Toy.oneKey) 0 = [x01; x02; x03]
  /\ Buffer.read (heap out.1) 0 = [x01; x02; x03]
  /\ Buffer.read (heap out.1) 0 <> [x00; x00; x00].
Proof. repeat split; try reflexivity. discriminate. Qed.

Lemma storeKey_zeroes_its_own_buffers_witness :
  let out := storeKey Toy.oneKey "bot" 0 "PUB" "pw" None [x0a] [x0b] 1 in
  Buffer.read (heap out.1) (secretKeyBuffer out.2) = [x00; x00; x00]
  /\ Buffer.read (heap out.1) (derivedKey out.2) = [x00; x00]
  /\ secretKeyBuffer out.2 <> 0%nat
  /\ derivedKey out.2 <> 0%nat
  /\ Buffer.read (heap out.1) 0 = [x01; x02; x03].
Proof.
  apply (@storeKey_zeroes_its_own_buffers Toy.crypto Toy.oneKey
           "bot" 0%nat "PUB" "pw" None [x0a] [x0b] 1).
  simpl. lia.
Defined.

(** C6, as stated, fails: [storeKey] for an id that is present does not
    fail, and the document of the id is replaced. *)
Lemma storeKey_replaces_existing_record :
  let stored := (storeKey Toy.holding "bot" 0 "NEW" "pw2" None [x0c] [x0d] 2).1 in
  hasWallet Toy.holding "bot" = true
  /\ publicKey <$> files Toy.holding !! getKeyFilePath "bot" = Some "OLD"
  /\ publicKey <$> files stored !! getKeyFilePath "bot" = Some "NEW"
  /\ files stored !! getKeyFilePath "bot" <> files Toy.holding !! getKeyFilePath "bot".
Proof. repeat split; try reflexivity. vm_compute. discriminate. Qed.

Lemma storeKey_overwrites_create_refuses_witness :
  let stored := (storeKey Toy.holding "bot" 0 "NEW" "pw2" None [x0c] [x0d] 2).1 in
  files stored !! getKeyFilePath "bot"
    = Some (sealedRecord [x01; x02; x03] "NEW" "pw2" None [x0c] [x0d] 2)
  /\ (forall path, path <> getKeyFilePath "bot" ->
                   files stored !! path = files Toy.holding !! path)
  /\ (forall config keypair nowMeta,
        agentId config = "bot" ->
        SecureAgenticWallet.create Toy.holding config "pw2" keypair [x0c] [x0d] nowMeta 2
        = (Toy.holding, Throw (WalletAlreadyExists "bot"))).
Proof.
  apply (@storeKey_overwrites_create_refuses Toy.crypto Toy.holding
           "bot" 0%nat "NEW" "pw2" None [x0c] [x0d] 2).
  - vm_compute. lia.
  - reflexivity.
Defined.

Lemma sanitized_ids_share_a_record_witness :
  let stored := (storeKey Toy.oneKey "bot/1" 0 "PUB" "pw" None [x0a] [x0b] 1).1 in
  hasWallet stored "bot.1" = true
  /\ exists key w',
       retrieveKey stored "bot.1" "pw" = (w', Ok key)
       /\ Buffer.read (heap w') (secretKey key) = [x01; x02; x03].
Proof.
  apply (@sanitized_ids_share_a_record Toy.crypto toy_crypto_correct Toy.oneKey
           "bot/1" "bot.1" 0%nat "PUB" "pw" None [x0a] [x0b] 1).
  - discriminate.
  - reflexivity.
  - simpl. lia.
Defined.

End KeyStoreExamples.

(** ** VolumeTracker *)

Section VolumeFacts.
Import VolumeTracker.
Implicit Types (dailyVolume : gmap string DailyRecord) (agentId : string).

(** The tracker as the code has it.  It keeps one record per identity,
    stamped with the UTC calendar date of the call that created it.
    [addVolume] starts a fresh record [{amount, today}] when no record
    exists or the stored date is not today's date, and otherwise adds the
    amount to the stored one; [getVolume] returns the stored amount when a
    record with today's date exists and 0 otherwise.  Two time values of
    the same UTC day have the same date, and the records of other
    identities are left alone. *)
Theorem volume_record_per_calendar_date dailyVolume agentId amt now :
  let today := IsoDate.isoDate now in
  let after := addVolume dailyVolume agentId amt now in
  (dailyVolume !! agentId = None ->
     after !! agentId = Some {| amount := amt; date := today |}
     /\ getVolume dailyVolume agentId now = 0%Q)
  /\ (forall record, dailyVolume !! agentId = Some record ->
        date record <> today ->
        after !! agentId = Some {| amount := amt; date := today |}
        /\ getVolume dailyVolume agentId now = 0%Q)
  /\ (forall record, dailyVolume !! agentId = Some record ->
        date record = today ->
        after !! agentId
          = Some {| amount := (amount record + amt)%Q; date := today |}
        /\ getVolume dailyVolume agentId now = amount record)
  /\ (forall other, other <> agentId -> after !! other = dailyVolume !! other)
  /\ (forall now', IsoDate.utcDay now' = IsoDate.utcDay now ->
        IsoDate.isoDate now' = today).
Proof.
  intros today after. subst after. unfold addVolume, getVolume. fold today.
  split; [|split; [|split; [|split]]].
  - intros Hnone. rewrite Hnone. split; [apply lookup_insert_eq|done].
  - intros record Hsome Hdate. rewrite Hsome.
    apply String.eqb_neq in Hdate. rewrite Hdate.
    split; [apply lookup_insert_eq|done].
  - intros record Hsome Hdate. rewrite Hsome, <- Hdate, String.eqb_refl.
    split; [apply lookup_insert_eq|done].
  - intros other Hne. destruct (dailyVolume !! agentId) as [record|] eqn:E.
    + destruct (negb _); by rewrite lookup_insert_ne.
    + by rewrite lookup_insert_ne.
  - intros now' Hday. unfold today, IsoDate.isoDate. by rewrite Hday.
Qed.

End VolumeFacts.

Section VolumeExamples.
Import VolumeTracker.
Open Scope string_scope.

(** A record created at 23:59:59 UTC is gone two seconds later, at
    00:00:01 UTC of the next day: [getVolume] returns 0 although a record
    exists that is far less than 24 hours old, and [addVolume] starts over
    instead of adding. *)
Lemma volume_window_ends_at_utc_midnight :
  let t0 := 86399000 in
  let t1 := 86401000 in
  let tracker := addVolume ∅ "bot" 1%Q t0 in
  t1 - t0 <= 24 * 60 * 60 * 1000
  /\ tracker !! "bot" = Some {| amount := 1%Q; date := "1970-01-01" |}
  /\ getVolume tracker "bot" t1 = 0%Q
  /\ addVolume tracker "bot" 2%Q t1 !! "bot"
     = Some {| amount := 2%Q; date := "1970-01-02" |}.
Proof. repeat split; try reflexivity. vm_compute. discriminate. Qed.

Lemma volume_record_per_calendar_date_witness :
  let tracker := addVolume ∅ "bot" 1%Q 1000 in
  addVolume tracker "bot" 2%Q 5000 !! "bot"
    = Some {| amount := (1 + 2)%Q; date := "1970-01-01" |}
  /\ getVolume tracker "bot" 5000 = 1%Q.
Proof.
  destruct (volume_record_per_calendar_date (addVolume ∅ "bot" 1%Q 1000) "bot" 2%Q
              5000) as (_ & _ & Hsame & _).
  exact (Hsame {| amount := 1%Q; date := "1970-01-01" |} eq_refl eq_refl).
Defined.

End VolumeExamples.

(** ** Numbers *)

Lemma numGt_true (a b : number) : numGt a b = true <-> (b < a)%Q.
Proof.
  unfold numGt. rewrite negb_true_iff, <- not_true_iff_false, Qle_bool_iff.
  split; [apply Qnot_le_lt | apply Qlt_not_le].
Qed.

Lemma numGt_false (a b : number) : numGt a b = false <-> (a <= b)%Q.
Proof. unfold numGt. by rewrite negb_false_iff, Qle_bool_iff. Qed.

Lemma orZero_some (q : number) : (orZero (Some q) == q)%Q.
Proof.
  unfold orZero. destruct (Qeq_bool q 0) eqn:E; [|reflexivity].
  symmetry. by apply Qeq_bool_iff.
Qed.

(** ** ExecutionEngine *)

(** Closes [ev ∉ trace] for a literal trace none of whose events is built
    with the constructor of [ev], and goals that hold by computation. *)
Ltac absent_from_trace :=
  first
    [ done
    | intros;
      repeat (apply not_elem_of_cons; split; [discriminate|]);
      apply not_elem_of_nil ].

Section EngineFacts.
Context {crypto : Crypto}.
Import ExecutionEngine.
Implicit Types (e : State) (w : World) (L : Ledger) (clock : Clock).
Implicit Types (agentId walletPassword : string) (params : ActionParams).

(** [signAndSubmit] returns a signature exactly when every one of its
    steps, confirmation included, succeeded. *)
Lemma signAndSubmit_confirmed L secretKey params signature :
  signAndSubmit L secretKey params = Ok signature
  <-> confirmedSubmission L secretKey params signature.
Proof.
  unfold signAndSubmit, confirmedSubmission, bind. split.
  - destruct (keypairFromSecretKey L secretKey) as [publicKey|] eqn:Hpair; [|done].
    destruct (buildTransaction L publicKey params) as [transaction|] eqn:Hbuild;
      [|done].
    destruct (getLatestBlockhash L) as [latest|] eqn:Hlatest; [|done].
    destruct (signAndSerialize L _ secretKey) as [raw|] eqn:Hsign; [|done].
    destruct (sendRawTransaction L raw) as [sent|] eqn:Hsend; [|done].
    destruct (confirmTransaction L sent latest.1 latest.2) as [[]|] eqn:Hconfirm;
      [|done].
    intros [= <-]. by exists publicKey, transaction, latest, raw.
  - intros (publicKey & transaction & latest & raw & -> & -> & -> & -> & -> & ->).
    done.
Qed.

(** A call that was denied, rate limited or over the volume limit returns
    at once. *)
Lemma execute_denied e w L clock agentId walletPassword params reason :
  validatePermissions e agentId params = Denied reason ->
  execute e w L clock agentId walletPassword params
  = {| engine := e; world := w;
       result := createResult false (action params) (Some reason) None
                   (atResult clock);
       trace := [] |}.
Proof. intros Hdenied. unfold execute. by rewrite Hdenied. Qed.

(** An amount above the per-transaction limit is never allowed. *)
Lemma validatePermissions_over_limit e agentId params perms amt :
  permissions e !! agentId = Some perms ->
  amount params = Some amt ->
  (maxTransactionAmount perms < amt)%Q ->
  exists reason, validatePermissions e agentId params = Denied reason.
Proof.
  intros Hperms Hamount Hover. unfold validatePermissions. rewrite Hperms.
  destruct (bool_decide (level perms = READ_ONLY)); [by eexists|].
  destruct (negb _); [by eexists|].
  assert (Hgt : numGt (orZero (amount params)) (maxTransactionAmount perms) = true).
  { apply numGt_true. rewrite Hamount, orZero_some. done. }
  rewrite Hgt. by eexists.
Qed.

(** C1. When [validatePermissions] fails, [execute] returns a result with
    [success = false] whose error is the denial reason, makes no call on
    the key store (not [retrieveKey], nor any other) and leaves the engine
    and every buffer as they were.  In particular this is what happens for
    every amount above [maxTransactionAmount] of a registered identity. *)
Theorem permission_failure_touches_no_key e w L clock agentId walletPassword params :
  let out := execute e w L clock agentId walletPassword params in
  (forall reason,
      validatePermissions e agentId params = Denied reason ->
      success (result out) = false
      /\ error (result out) = Some reason
      /\ trace out = []
      /\ world out = w
      /\ engine out = e)
  /\ (forall perms amt,
        permissions e !! agentId = Some perms ->
        amount params = Some amt ->
        (maxTransactionAmount perms < amt)%Q ->
        exists reason,
          validatePermissions e agentId params = Denied reason
          /\ success (result out) = false
          /\ error (result out) = Some reason
          /\ (CallRetrieveKey agentId ∉ trace out)).
Proof.
  intros out. split.
  - intros reason Hdenied. subst out.
    by rewrite (execute_denied _ _ _ _ _ _ _ _ Hdenied).
  - intros perms amt Hperms Hamount Hover.
    destruct (validatePermissions_over_limit _ _ _ _ _ Hperms Hamount Hover)
      as [reason Hdenied].
    exists reason. subst out. rewrite (execute_denied _ _ _ _ _ _ _ _ Hdenied).
    cbn. repeat split; absent_from_trace.
Qed.

(** The two ways [execute] can end: with a confirmed submission, recorded
    in both trackers, or without one and with both trackers untouched. *)
Lemma execute_cases e w L clock agentId walletPassword params :
  let out := execute e w L clock agentId walletPassword params in
  (reachesConfirmation e w L clock agentId walletPassword params
   /\ success (result out) = true
   /\ rateLimiter (engine out)
      = RateLimiter.recordTransaction (rateLimiter e) agentId (atRecord clock)
   /\ volumeTracker (engine out)
      = VolumeTracker.addVolume (volumeTracker e) agentId (orZero (amount params))
          (atAddVolume clock))
  \/ (~ reachesConfirmation e w L clock agentId walletPassword params
      /\ success (result out) = false
      /\ rateLimiter (engine out) = rateLimiter e
      /\ volumeTracker (engine out) = volumeTracker e
      /\ (CallRecordTransaction agentId ∉ trace out)
      /\ (forall amt, CallAddVolume agentId amt ∉ trace out)).
Proof.
  intros out. subst out. unfold execute.
  destruct (validatePermissions e agentId params) as [|reason] eqn:Hvalid.
  2: { right. cbn. split; [|repeat split; absent_from_trace].
       intros (? & ? & ? & ? & Hallowed & _). congruence. }
  destruct (permissions e !! agentId) as [perms|] eqn:Hperms.
  2: { right. cbn. split; [|repeat split; absent_from_trace].
       intros (? & ? & ? & ? & _ & Hsome & _). congruence. }
  destruct (RateLimiter.canExecute _ _ _ _) eqn:Hrate; cbn [negb].
  2: { right. cbn. split; [|repeat split; absent_from_trace].
       intros (? & ? & ? & ? & _ & Hsome & Hcan & _). congruence. }
  destruct (numGt _ _) eqn:Hvolume.
  { right. cbn. split; [|repeat split; absent_from_trace].
    intros (? & ? & ? & ? & _ & Hsome & _ & Hvol & _). congruence. }
  destruct (SecureKeyStore.retrieveKey w agentId walletPassword)
    as [w1 [key|reason]] eqn:Hkey.
  2: { right. cbn. split.
       - intros (? & ? & ? & ? & _ & _ & _ & _ & Hget & _). congruence.
       - repeat split; absent_from_trace. }
  destruct (signAndSubmit L _ params) as [signature|reason] eqn:Hsubmit.
  - left. cbn. repeat split.
    exists perms, w1, key, signature. repeat split; try done.
    by apply signAndSubmit_confirmed.
  - right. cbn. split.
    + intros (? & w1' & key' & signature & _ & _ & _ & _ & Hget & Hconfirmed).
      apply signAndSubmit_confirmed in Hconfirmed.
      rewrite Hkey in Hget. injection Hget as <- <-. congruence.
    + repeat split; absent_from_trace.
Qed.

(** C2. A call that does not reach a confirmed submission (a check
    failed, the key could not be retrieved, or building, signing, sending
    or confirming threw) fails and changes neither the recorded timestamps
    of the rate limiter nor the volume tracker; the tick and the addition
    are made by the calls that do reach it. *)
Theorem quota_consumed_only_after_confirmation e w L clock agentId walletPassword
    params :
  let out := execute e w L clock agentId walletPassword params in
  (~ reachesConfirmation e w L clock agentId walletPassword params ->
     success (result out) = false
     /\ rateLimiter (engine out) = rateLimiter e
     /\ volumeTracker (engine out) = volumeTracker e
     /\ (CallRecordTransaction agentId ∉ trace out)
     /\ (forall amt, CallAddVolume agentId amt ∉ trace out))
  /\ (reachesConfirmation e w L clock agentId walletPassword params ->
       success (result out) = true
       /\ rateLimiter (engine out)
          = RateLimiter.recordTransaction (rateLimiter e) agentId (atRecord clock)
       /\ volumeTracker (engine out)
          = VolumeTracker.addVolume (volumeTracker e) agentId
              (orZero (amount params)) (atAddVolume clock)).
Proof.
  intros out. subst out.
  destruct (execute_cases e w L clock agentId walletPassword params)
    as [(Hreach & Hok) | (Hnot & Hfail)].
  - split; [by intros Hnot | by intros _].
  - split; [by intros _ | by intros Hreach].
Qed.

(** [validatePermissions] reads the permission table only. *)
Lemma validatePermissions_permissions e e' agentId params :
  permissions e' = permissions e ->
  validatePermissions e' agentId params = validatePermissions e agentId params.
Proof. unfold validatePermissions. by intros ->. Qed.

(** [validatePermissions] as a list of checks of which the first failing
    one decides. *)
Lemma validatePermissions_firstFailure e agentId params perms :
  permissions e !! agentId = Some perms ->
  validatePermissions e agentId params
  = firstFailure
      [ (bool_decide (level perms = READ_ONLY), ReadOnlyAgent);
        (negb (bool_decide (action params ∈ allowedActions perms)),
         ActionNotAllowed (action params));
        (numGt (orZero (amount params)) (maxTransactionAmount perms),
         AmountExceedsMax (orZero (amount params)) (maxTransactionAmount perms));
        (destinationRefused perms params, DestinationNotInWhitelist) ].
Proof.
  intros Hperms. unfold validatePermissions, destinationRefused. rewrite Hperms.
  cbn [firstFailure].
  destruct (bool_decide (level perms = READ_ONLY)); [done|].
  destruct (negb (bool_decide (action params ∈ allowedActions perms))); [done|].
  destruct (numGt _ _); [done|].
  destruct (allowedDestinations perms) as [allowed|]; [|done].
  destruct (truthy (destination params)) as [dest|]; [|done].
  by destruct (negb _).
Qed.

(** The checks as the code has them.  [validatePermissions] makes five
    checks in this order, the first failure deciding: identity registered, level not
    read-only, action allowed, amount at most [maxTransactionAmount],
    destination in the allowlist when one is configured and a destination
    is given.  It reads the permission table only; the daily volume is
    checked by [execute], after [validatePermissions] and after the rate
    limit.  So a request that passes the first four checks and names a
    destination outside the allowlist is denied for its destination,
    whatever the volume used so far, and the volume reason is returned only
    when [validatePermissions] and the rate limiter both accept. *)
Theorem validatePermissions_check_order e w L clock agentId walletPassword params :
  let out := execute e w L clock agentId walletPassword params in
  (permissions e !! agentId = None ->
     validatePermissions e agentId params = Denied AgentNotRegistered)
  /\ (forall perms,
        permissions e !! agentId = Some perms ->
        validatePermissions e agentId params
        = firstFailure
            [ (bool_decide (level perms = READ_ONLY), ReadOnlyAgent);
              (negb (bool_decide (action params ∈ allowedActions perms)),
               ActionNotAllowed (action params));
              (numGt (orZero (amount params)) (maxTransactionAmount perms),
               AmountExceedsMax (orZero (amount params))
                 (maxTransactionAmount perms));
              (destinationRefused perms params, DestinationNotInWhitelist) ])
  /\ (forall e',
        permissions e' = permissions e ->
        validatePermissions e' agentId params = validatePermissions e agentId params)
  /\ (forall perms,
        permissions e !! agentId = Some perms ->
        level perms <> READ_ONLY ->
        action params ∈ allowedActions perms ->
        numGt (orZero (amount params)) (maxTransactionAmount perms) = false ->
        destinationRefused perms params = true ->
        error (result out) = Some DestinationNotInWhitelist /\ trace out = [])
  /\ (forall perms,
        permissions e !! agentId = Some perms ->
        validatePermissions e agentId params = Allowed ->
        RateLimiter.canExecute (rateLimiter e) agentId (rateLimit perms)
          (atRateCheck clock) = true ->
        let currentVolume :=
          VolumeTracker.getVolume (volumeTracker e) agentId (atVolumeCheck clock) in
        numGt (currentVolume + orZero (amount params))%Q (maxDailyVolume perms)
          = true ->
        error (result out)
          = Some (DailyVolumeLimitExceeded currentVolume (maxDailyVolume perms))
        /\ trace out = []).
Proof.
  intros out. split; [|split; [|split; [|split]]].
  - intros Hnone. unfold validatePermissions. by rewrite Hnone.
  - apply validatePermissions_firstFailure.
  - intros e'. apply validatePermissions_permissions.
  - intros perms Hperms Hlevel Haction Hamount Hdest. subst out.
    rewrite (execute_denied _ _ _ _ _ _ _ DestinationNotInWhitelist); [done|].
    rewrite (validatePermissions_firstFailure _ _ _ _ Hperms). cbn [firstFailure].
    rewrite bool_decide_eq_false_2 by done.
    rewrite bool_decide_eq_true_2 by done. cbn [negb].
    by rewrite Hamount, Hdest.
  - intros perms Hperms Hallowed Hrate currentVolume Hvolume. subst out.
    unfold execute. rewrite Hallowed, Hperms, Hrate. cbn [negb].
    fold currentVolume. by rewrite Hvolume.
Qed.

(** C9, as the code has it.  When the [amount] field is absent, the
    permission validation and the daily-volume check both use 0: the
    per-transaction check passes whenever [maxTransactionAmount] is not
    negative and the volume check passes whenever the volume used so far
    does not exceed [maxDailyVolume] (so also when the limit and the
    remaining allowance are 0).  For a registered identity that is not
    read-only and an allowed action, such a request goes on to key
    retrieval provided that the destination check and the rate limiter
    accept it too. *)
Theorem absent_amount_counts_as_zero e w L clock agentId walletPassword params perms :
  permissions e !! agentId = Some perms ->
  level perms <> READ_ONLY ->
  action params ∈ allowedActions perms ->
  amount params = None ->
  (0 <= maxTransactionAmount perms)%Q ->
  (VolumeTracker.getVolume (volumeTracker e) agentId (atVolumeCheck clock)
   <= maxDailyVolume perms)%Q ->
  destinationRefused perms params = false ->
  RateLimiter.canExecute (rateLimiter e) agentId (rateLimit perms)
    (atRateCheck clock) = true ->
  let out := execute e w L clock agentId walletPassword params in
  orZero (amount params) = 0%Q
  /\ numGt (orZero (amount params)) (maxTransactionAmount perms) = false
  /\ numGt (VolumeTracker.getVolume (volumeTracker e) agentId (atVolumeCheck clock)
            + orZero (amount params))%Q (maxDailyVolume perms) = false
  /\ validatePermissions e agentId params = Allowed
  /\ head (trace out) = Some (CallRetrieveKey agentId).
Proof.
  intros Hperms Hlevel Haction Hamount Hcap Hvolume Hdest Hrate out.
  assert (Hzero : orZero (amount params) = 0%Q) by by rewrite Hamount.
  assert (Hcheck : numGt (orZero (amount params)) (maxTransactionAmount perms)
                   = false).
  { rewrite Hzero. by apply numGt_false. }
  assert (Hsum : numGt (VolumeTracker.getVolume (volumeTracker e) agentId
                          (atVolumeCheck clock) + orZero (amount params))%Q
                   (maxDailyVolume perms) = false).
  { rewrite Hzero. apply numGt_false. lra. }
  assert (Hallowed : validatePermissions e agentId params = Allowed).
  { rewrite (validatePermissions_firstFailure _ _ _ _ Hperms). cbn [firstFailure].
    rewrite bool_decide_eq_false_2 by done.
    rewrite bool_decide_eq_true_2 by done. cbn [negb].
    by rewrite Hcheck, Hdest. }
  repeat split; try done.
  subst out. unfold execute. rewrite Hallowed, Hperms, Hrate. cbn [negb].
  rewrite Hsum.
  destruct (SecureKeyStore.retrieveKey w agentId walletPassword) as [w1 [key|reason]];
    [|done].
  by destruct (signAndSubmit L _ params).
Qed.

End EngineFacts.

(** ** The engine and the wallet on concrete inputs *)

Section EngineExamples.
Import ExecutionEngine.
#[local] Existing Instance Toy.crypto.
Open Scope string_scope.

Lemma permission_failure_touches_no_key_witness :
  let out :=
    execute (Toy.engineOf Toy.standard) Toy.holding Toy.ledger (Toy.clock 1000)
      "bot" "pw" (Toy.transfer "ALICE" (1 # 10)) in
  exists reason,
    validatePermissions (Toy.engineOf Toy.standard) "bot"
      (Toy.transfer "ALICE" (1 # 10)) = Denied reason
    /\ success (result out) = false
    /\ error (result out) = Some reason
    /\ (CallRetrieveKey "bot" ∉ trace out).
Proof.
  destruct (permission_failure_touches_no_key (Toy.engineOf Toy.standard) Toy.holding
              Toy.ledger (Toy.clock 1000) "bot" "pw" (Toy.transfer "ALICE" (1 # 10)))
    as [_ Hover].
  apply (Hover Toy.standard (1 # 10)%Q); reflexivity.
Defined.

Lemma quota_consumed_only_after_confirmation_witness :
  let e := Toy.engineOf Toy.standard in
  let out :=
    execute e Toy.holding Toy.unconfirmed (Toy.clock 1000) "bot" "pw"
      (Toy.transfer "ALICE" (1 # 100)) in
  success (result out) = false
  /\ rateLimiter (engine out) = rateLimiter e
  /\ volumeTracker (engine out) = volumeTracker e
  /\ (CallRecordTransaction "bot" ∉ trace out)
  /\ (forall amt, CallAddVolume "bot" amt ∉ trace out).
Proof.
  destruct (quota_consumed_only_after_confirmation (Toy.engineOf Toy.standard)
              Toy.holding Toy.unconfirmed (Toy.clock 1000) "bot" "pw"
              (Toy.transfer "ALICE" (1 # 100))) as [Hfailed _].
  apply Hfailed.
  intros (perms & w1 & key & signature & _ & _ & _ & _ & _ & Hconfirmed).
  destruct Hconfirmed as (pk & tx & latest & raw & _ & _ & _ & _ & _ & Hconfirm).
  discriminate Hconfirm.
Defined.

(** The failing call of the witness above did get as far as the key. *)
Example unconfirmed_call_trace :
  trace (execute (Toy.engineOf Toy.standard) Toy.holding Toy.unconfirmed
           (Toy.clock 1000) "bot" "pw" (Toy.transfer "ALICE" (1 # 100)))
  = [CallRetrieveKey "bot"; CallCleanup].
Proof. reflexivity. Qed.

Lemma validatePermissions_check_order_witness :
  let e := Toy.engineOf Toy.restricted in
  let out :=
    execute e Toy.holding Toy.ledger (Toy.clock 1000) "bot" "pw"
      (Toy.transfer "MALLORY" (5 # 10)) in
  error (result out) = Some DestinationNotInWhitelist /\ trace out = [].
Proof.
  destruct (validatePermissions_check_order (Toy.engineOf Toy.restricted) Toy.holding
              Toy.ledger (Toy.clock 1000) "bot" "pw" (Toy.transfer "MALLORY" (5 # 10)))
    as (_ & _ & _ & Hdest & _).
  apply (Hdest Toy.restricted); try reflexivity.
  - discriminate.
  - apply elem_of_cons. left. reflexivity.
Defined.

(** C9, as stated, fails.  Each request below comes from a registered
    identity that is not read-only, names an allowed action and has no
    [amount]; none of them reaches key retrieval.  The first names a
    destination outside the allowlist, the second is the second call within
    a minute under a limit of one, the third meets a negative
    per-transaction limit and the fourth a negative daily limit. *)
Lemma absent_amount_request_can_be_refused :
  amount Toy.customCall = None
  /\ amount (Toy.customCallTo "MALLORY") = None
  /\ (let out :=
        execute (Toy.engineOf Toy.zeroLimitsAllowlist) Toy.holding Toy.ledger
          (Toy.clock 1000) "bot" "pw" (Toy.customCallTo "MALLORY") in
      error (result out) = Some DestinationNotInWhitelist /\ trace out = [])
  /\ (let first :=
        execute (Toy.engineOf Toy.oncePerMinute) Toy.holding Toy.ledger
          (Toy.clock 1000) "bot" "pw" Toy.customCall in
      let out :=
        execute (engine first) (world first) Toy.ledger (Toy.clock 2000)
          "bot" "pw" Toy.customCall in
      success (result first) = true
      /\ error (result out) = Some RateLimitExceeded /\ trace out = [])
  /\ (let out :=
        execute (Toy.engineOf Toy.negativeCap) Toy.holding Toy.ledger
          (Toy.clock 1000) "bot" "pw" Toy.customCall in
      error (result out) = Some (AmountExceedsMax 0%Q (-1)%Q) /\ trace out = [])
  /\ (let out :=
        execute (Toy.engineOf Toy.negativeDaily) Toy.holding Toy.ledger
          (Toy.clock 1000) "bot" "pw" Toy.customCall in
      error (result out) = Some (DailyVolumeLimitExceeded 0%Q (-1)%Q)
      /\ trace out = []).
Proof. repeat split; reflexivity. Qed.

Lemma absent_amount_counts_as_zero_witness :
  let e := Toy.engineOf Toy.zeroLimits in
  let out :=
    execute e Toy.holding Toy.ledger (Toy.clock 1000) "bot" "pw" Toy.customCall in
  orZero (amount Toy.customCall) = 0%Q
  /\ numGt (orZero (amount Toy.customCall)) (maxTransactionAmount Toy.zeroLimits)
     = false
  /\ numGt (VolumeTracker.getVolume (volumeTracker e) "bot" 1000
            + orZero (amount Toy.customCall))%Q (maxDailyVolume Toy.zeroLimits)
     = false
  /\ validatePermissions e "bot" Toy.customCall = Allowed
  /\ head (trace out) = Some (CallRetrieveKey "bot").
Proof.
  apply (@absent_amount_counts_as_zero Toy.crypto (Toy.engineOf Toy.zeroLimits)
           Toy.holding Toy.ledger (Toy.clock 1000) "bot" "pw" Toy.customCall
           Toy.zeroLimits); try reflexivity.
  - discriminate.
  - apply elem_of_cons. left. reflexivity.
  - by apply Qle_bool_iff.
  - by apply Qle_bool_iff.
Defined.

(** C3 on two inputs the wallet accepts.  A wallet created with a
    read-only profile that lists [transfer_sol]: [canExecute] allows the
    transfer, [execute] rejects it as read-only.  A wallet limited to one
    transaction per minute, after one confirmed call: [canExecute] allows a
    second call, [execute] rejects it as rate limited. *)
Theorem canExecute_allows_what_execute_rejects :
  (exists w wallet,
      Toy.created Toy.readOnly = (w, Ok wallet)
      /\ SecureAgenticWallet.canExecute wallet (Toy.transfer "ALICE" (5 # 10)) 1000
         = SecureAgenticWallet.PreviewAllowed
      /\ let out :=
           (SecureAgenticWallet.execute wallet w Toy.ledger (Toy.clock 1000)
              (Toy.transfer "ALICE" (5 # 10))).2 in
         success (result out) = false
         /\ error (result out) = Some ReadOnlyAgent)
  /\ (exists w wallet,
        Toy.created Toy.oncePerMinute = (w, Ok wallet)
        /\ let first :=
             SecureAgenticWallet.execute wallet w Toy.ledger (Toy.clock 1000)
               Toy.customCall in
           success (result first.2) = true
           /\ SecureAgenticWallet.canExecute first.1 Toy.customCall 2000
              = SecureAgenticWallet.PreviewAllowed
           /\ let out :=
                (SecureAgenticWallet.execute first.1 (world first.2) Toy.ledger
                   (Toy.clock 2000) Toy.customCall).2 in
              success (result out) = false
              /\ error (result out) = Some RateLimitExceeded).
Proof.
  split.
  - eexists _, _. split; [reflexivity|]. by repeat split.
  - eexists _, _. split; [reflexivity|]. by repeat split.
Qed.

(** C4 on an input that tells the two orders apart.  The wallet ["bot"]
    may send to ["ALICE"] only and has a daily limit of 0.2 SOL, of which
    nothing is used.  A transfer of 0.5 SOL to ["MALLORY"] passes the first
    four checks, exceeds the remaining daily allowance and names a
    destination outside the allowlist.  [execute] denies it for its
    destination: [validatePermissions] has no volume check, and the volume
    check of [execute] comes after it.  [canExecute], the preview of the same
    decision, checks the remaining allowance before the destination, as the
    documented order does, and denies the same request of the same wallet
    for its volume. *)
Theorem execute_reports_destination_where_preview_reports_volume :
  let wallet := Toy.walletOf Toy.restricted in
  let params := Toy.transfer "MALLORY" (5 # 10) in
  let remaining := SecureAgenticWallet.getRemainingAllowance wallet 1000 in
  let out :=
    (SecureAgenticWallet.execute wallet Toy.holding Toy.ledger (Toy.clock 1000)
       params).2 in
  permissions (SecureAgenticWallet.executionEngine wallet) !! "bot" = Some Toy.restricted
  /\ level Toy.restricted <> READ_ONLY
  /\ action params ∈ allowedActions Toy.restricted
  /\ numGt (orZero (amount params)) (maxTransactionAmount Toy.restricted) = false
  /\ numGt (orZero (amount params)) remaining = true
  /\ destinationRefused Toy.restricted params = true
  /\ validatePermissions (SecureAgenticWallet.executionEngine wallet) "bot" params
     = Denied DestinationNotInWhitelist
  /\ success (result out) = false
  /\ error (result out) = Some DestinationNotInWhitelist
  /\ SecureAgenticWallet.canExecute wallet params 1000
     = SecureAgenticWallet.PreviewDenied
         (AmountExceedsRemaining (orZero (amount params)) remaining).
Proof.
  repeat split; try reflexivity.
  - discriminate.
  - apply elem_of_cons. left. reflexivity.
Qed.

(** C5 on two calls around midnight.  The identity ["bot"] may move 1 SOL
    per day.  A transfer of 1 SOL confirmed at 23:59:59 UTC uses the whole
    allowance: half a second later a second transfer of 1 SOL is refused for
    the daily volume.  Two seconds after the first, at 00:00:01 UTC, the
    volume used reads 0 again and the second transfer of 1 SOL is confirmed:
    2 SOL have moved within two seconds, far less than 24 hours after the
    first transaction of the window. *)
Theorem daily_cap_spent_twice_across_utc_midnight :
  let e := Toy.engineOf Toy.oneADay in
  let params := Toy.transfer "ALICE" 1 in
  let t0 := 86399000 in
  let t1 := 86401000 in
  let first := execute e Toy.holding Toy.ledger (Toy.clock t0) "bot" "pw" params in
  let sameDay :=
    execute (engine first) (world first) Toy.ledger (Toy.clock (t0 + 500)) "bot" "pw"
      params in
  let nextDay :=
    execute (engine first) (world first) Toy.ledger (Toy.clock t1) "bot" "pw" params in
  maxDailyVolume Toy.oneADay = 1%Q
  /\ IsoDate.isoDate t0 = "1970-01-01"
  /\ IsoDate.isoDate t1 = "1970-01-02"
  /\ t1 - t0 = 2000
  /\ success (result first) = true
  /\ resultAmount (result first) = Some 1%Q
  /\ getDailyVolume (engine first) "bot" (t0 + 500) = 1%Q
  /\ success (result sameDay) = false
  /\ error (result sameDay) = Some (DailyVolumeLimitExceeded 1 1)
  /\ getDailyVolume (engine first) "bot" t1 = 0%Q
  /\ success (result nextDay) = true
  /\ resultAmount (result nextDay) = Some 1%Q
  /\ volumeTracker (engine nextDay) !! "bot"
     = Some {| VolumeTracker.amount := 1; VolumeTracker.date := "1970-01-02" |}.
Proof. by repeat split. Qed.

End EngineExamples.

(** * Further properties of the modelled code *)

(** ** Strings and file names *)

Lemma string_length_app (a b : string) :
  String.length (a ++ b) = (String.length a + String.length b)%nat.
Proof. induction a as [|c a IH]; [done|]. cbn. by rewrite <- IH. Qed.

Lemma string_app_inv_tail (a b s : string) :
  (a ++ s = b ++ s)%string -> a = b.
Proof.
  revert b. induction a as [|c a IH]; intros [|d b] Heq; [done| | |].
  - apply (f_equal String.length) in Heq.
    rewrite !string_length_app in Heq. cbn in Heq. lia.
  - apply (f_equal String.length) in Heq.
    rewrite !string_length_app in Heq. cbn in Heq. lia.
  - change (String c (a ++ s) = String d (b ++ s)) in Heq.
    injection Heq as -> Heq. f_equal. by apply IH.
Qed.

Section FileNames.
Import SecureKeyStore.

Lemma sanitize_allSafe walletId : allSafe (sanitize walletId) = true.
Proof.
  induction walletId as [|c rest IH]; [done|]. cbn.
  rewrite IH, andb_true_r. by destruct (safeChar c) eqn:E.
Qed.

Lemma sanitize_safe s : allSafe s = true -> sanitize s = s.
Proof.
  induction s as [|c rest IH]; [done|]. cbn.
  intros [Hc Hrest]%andb_true_iff. by rewrite Hc, IH.
Qed.

Lemma sanitize_length walletId :
  String.length (sanitize walletId) = String.length walletId.
Proof. induction walletId as [|c rest IH]; [done|]. cbn. by rewrite IH. Qed.

(** Two ids have the same key file exactly when their sanitized forms are
    equal. *)
Lemma getKeyFilePath_inj id1 id2 :
  getKeyFilePath id1 = getKeyFilePath id2 <-> sanitize id1 = sanitize id2.
Proof.
  unfold getKeyFilePath. split; [apply string_app_inv_tail | by intros ->].
Qed.

End FileNames.

(** ** Buffers that are allocated and wiped *)

Section WipedBuffers.
Implicit Types (h : Heap) (l : list (list byte)) (bs : list byte).

Lemma fill0_app_new h l i :
  Buffer.fill0 (h ++ l) (i + length h) = h ++ Buffer.fill0 l i.
Proof. unfold Buffer.fill0. rewrite (Nat.add_comm i). apply alter_app_r. Qed.

Lemma fill0_app_old h l i :
  (i < length h)%nat -> Buffer.fill0 (h ++ l) i = Buffer.fill0 h i ++ l.
Proof. intros Hi. unfold Buffer.fill0. by apply alter_app_l. Qed.

Lemma read_app_new h l i : Buffer.read (h ++ l) (i + length h) = Buffer.read l i.
Proof.
  unfold Buffer.read. rewrite lookup_app_r by lia.
  by replace (i + length h - length h)%nat with i by lia.
Qed.

Lemma read_app_old h l i :
  (i < length h)%nat -> Buffer.read (h ++ l) i = Buffer.read h i.
Proof. intros Hi. unfold Buffer.read. by rewrite lookup_app_l. Qed.

Lemma blank_zeros bs : Buffer.blank (Buffer.zeros bs).
Proof.
  unfold Buffer.blank, Buffer.zeros. apply Forall_fmap.
  by apply Forall_true.
Qed.

End WipedBuffers.

(** Rewrites with an equation about the buffer at offset [i + length h]
    after computing the offset. *)
Ltac rewrite_at_offset lemma :=
  let H := fresh in
  pose proof lemma as H; cbn [Nat.add] in H; rewrite H; clear H.

(** ** More on SecureKeyStore *)

Section KeyStoreBehaviour.
Context {crypto : Crypto}.
Import SecureKeyStore.

(** The four ways [retrieveKey] can end, with the heap each one leaves. *)
Lemma retrieveKey_cases w walletId password :
  let n := length (heap w) in
  match files w !! getKeyFilePath walletId with
  | None => retrieveKey w walletId password = (w, Throw (WalletNotFound walletId))
  | Some data =>
      if negb (version data =? VERSION)
      then retrieveKey w walletId password
           = (w, Throw (UnsupportedVersion (version data)))
      else
        let key := pbkdf2 password (Hex.decode (salt data)) in
        match gcmDecrypt key (Hex.decode (iv data)) (Hex.decode (authTag data))
                (Hex.decode (encryptedKey data)) with
        | None =>
            retrieveKey w walletId password
            = ({| files := files w; heap := heap w ++ [Buffer.zeros key] |},
               Throw InvalidPasswordOrCorrupted)
        | Some plain =>
            retrieveKey w walletId password
            = ({| files := files w; heap := heap w ++ [Buffer.zeros key; plain; plain] |},
               Ok {| secretKey := S (S n);
                     handlePublicKey := publicKey data;
                     decrypted := S n |})
        end
  end.
Proof.
  intros n. unfold retrieveKey.
  destruct (files w !! getKeyFilePath walletId) as [data|]; [|done].
  destruct (negb (version data =? VERSION)); [done|].
  cbn [Buffer.alloc fst snd].
  set (key := pbkdf2 password (Hex.decode (salt data))).
  rewrite_at_offset (read_app_new (heap w) [key] 0).
  change (Buffer.read [key] 0) with key.
  destruct (gcmDecrypt key _ _ _) as [plain|].
  - unfold Buffer.copy. cbn [Buffer.alloc fst snd].
    rewrite !length_app. cbn [length].
    rewrite <- !(assoc_L (++)). cbn [app].
    replace (length (heap w) + 1)%nat with (S (length (heap w))) by lia.
    replace (length (heap w) + 2)%nat with (S (S (length (heap w)))) by lia.
    rewrite_at_offset (read_app_new (heap w) [key; plain] 1).
    change (Buffer.read [key; plain] 1) with plain.
    rewrite_at_offset (fill0_app_new (heap w) [key; plain; plain] 0).
    subst n. by replace (S (length (heap w)) + 1)%nat with (S (S (length (heap w))))
      by lia.
  - by rewrite_at_offset (fill0_app_new (heap w) [key] 0).
Qed.

(** The files and the buffers after [retrieveKey], and after the [cleanup]
    of its handle. *)
Lemma retrieveKey_buffer_facts w walletId password :
  let out := retrieveKey w walletId password in
  files out.1 = files w
  /\ (forall r, (r < length (heap w))%nat ->
                Buffer.read (heap out.1) r = Buffer.read (heap w) r)
  /\ Buffer.blank (Buffer.read (heap out.1) (length (heap w)))
  /\ match out.2 with
     | Throw _ => True
     | Ok key =>
         (length (heap w) < decrypted key < secretKey key)%nat
         /\ Buffer.read (heap out.1) (secretKey key)
            = Buffer.read (heap out.1) (decrypted key)
         /\ files (cleanup out.1 key) = files w
         /\ Buffer.blank (Buffer.read (heap (cleanup out.1 key)) (secretKey key))
         /\ Buffer.blank (Buffer.read (heap (cleanup out.1 key)) (decrypted key))
         /\ (forall r, r <> secretKey key -> r <> decrypted key ->
                       Buffer.read (heap (cleanup out.1 key)) r
                       = Buffer.read (heap out.1) r)
     end.
Proof.
  intros out. subst out.
  pose proof (retrieveKey_cases w walletId password) as Hcases. cbn zeta in Hcases.
  assert (Hnone : Buffer.blank (Buffer.read (heap w) (length (heap w)))).
  { unfold Buffer.read. rewrite lookup_ge_None_2 by lia. constructor. }
  destruct (files w !! getKeyFilePath walletId) as [data|].
  2: { rewrite Hcases. cbn [fst snd]. by repeat split. }
  destruct (negb (version data =? VERSION)).
  { rewrite Hcases. cbn [fst snd]. by repeat split. }
  set (key := pbkdf2 password (Hex.decode (salt data))) in *.
  destruct (gcmDecrypt key _ _ _) as [plain|]; rewrite Hcases; cbn [fst snd files heap];
    (split; [done|]); (split; [intros r Hr; by apply read_app_old|]).
  - split.
    { rewrite_at_offset (read_app_new (heap w) [Buffer.zeros key; plain; plain] 0).
      apply blank_zeros. }
    cbn [secretKey decrypted]. split; [lia|]. split.
    { rewrite_at_offset (read_app_new (heap w) [Buffer.zeros key; plain; plain] 2).
      by rewrite_at_offset (read_app_new (heap w) [Buffer.zeros key; plain; plain] 1). }
    unfold cleanup. cbn [files heap decrypted secretKey]. split; [done|].
    repeat split.
    + rewrite read_fill0_same. apply blank_zeros.
    + rewrite read_fill0_other, read_fill0_same by lia. apply blank_zeros.
    + intros r Hsecret Hdecrypted.
      by rewrite !read_fill0_other by done.
  - split; [|done].
    rewrite_at_offset (read_app_new (heap w) [Buffer.zeros key] 0).
    apply blank_zeros.
Qed.

(** X1. [retrieveKey] never writes to the store and never changes a buffer
    that existed before the call.  When it returns, with a handle or with an
    error, the buffer of the derived key (the first new buffer of the heap)
    holds zeros only.  The two buffers of a handle, [decrypted] and [secretKey],
    are new, distinct and hold the same bytes; [cleanup] zero-fills exactly
    these two and changes nothing else.  (Of the buffers the source names;
    see the conventions at the head of the file.) *)
Theorem retrieveKey_wipes_derived_key_and_handle w walletId password :
  let out := retrieveKey w walletId password in
  files out.1 = files w
  /\ (forall r, (r < length (heap w))%nat ->
                Buffer.read (heap out.1) r = Buffer.read (heap w) r)
  /\ Buffer.blank (Buffer.read (heap out.1) (length (heap w)))
  /\ match out.2 with
     | Throw _ => True
     | Ok key =>
         (length (heap w) < decrypted key < secretKey key)%nat
         /\ Buffer.read (heap out.1) (secretKey key)
            = Buffer.read (heap out.1) (decrypted key)
         /\ files (cleanup out.1 key) = files w
         /\ Buffer.blank (Buffer.read (heap (cleanup out.1 key)) (secretKey key))
         /\ Buffer.blank (Buffer.read (heap (cleanup out.1 key)) (decrypted key))
         /\ (forall r, r <> secretKey key -> r <> decrypted key ->
                       Buffer.read (heap (cleanup out.1 key)) r
                       = Buffer.read (heap out.1) r)
     end.
Proof. apply retrieveKey_buffer_facts. Qed.

(** X2. The refusals of [retrieveKey].  For an id without a key file it
    throws [Wallet not found], and for a key file of another format version
    it throws [Unsupported keystore version]: in both cases whatever the
    password, and without allocating or changing anything.  When decryption
    fails it throws the one message [Invalid password or corrupted keystore]
    and leaves the files as they were. *)
Theorem retrieveKey_refusals w walletId password :
  (hasWallet w walletId = false ->
     retrieveKey w walletId password = (w, Throw (WalletNotFound walletId)))
  /\ (forall data,
        files w !! getKeyFilePath walletId = Some data ->
        version data <> VERSION ->
        retrieveKey w walletId password
        = (w, Throw (UnsupportedVersion (version data))))
  /\ (forall data,
        files w !! getKeyFilePath walletId = Some data ->
        version data = VERSION ->
        gcmDecrypt (pbkdf2 password (Hex.decode (salt data))) (Hex.decode (iv data))
          (Hex.decode (authTag data)) (Hex.decode (encryptedKey data)) = None ->
        (retrieveKey w walletId password).2 = Throw InvalidPasswordOrCorrupted
        /\ files (retrieveKey w walletId password).1 = files w).
Proof.
  pose proof (retrieveKey_cases w walletId password) as Hcases. cbn zeta in Hcases.
  split; [|split].
  - unfold hasWallet. intros Habsent. apply bool_decide_eq_false in Habsent.
    destruct (files w !! getKeyFilePath walletId) as [data|]; [|done].
    by destruct Habsent.
  - intros data Hfile Hversion. rewrite Hfile in Hcases.
    apply Z.eqb_neq in Hversion. by rewrite Hversion in Hcases.
  - intros data Hfile Hversion Hfail. rewrite Hfile in Hcases.
    rewrite Hversion, Z.eqb_refl, Hfail in Hcases. cbn [negb] in Hcases.
    by rewrite Hcases.
Qed.

(** X3. [deleteWallet] returns whether the wallet existed.  Afterwards the
    wallet is gone for the id and for every id with the same sanitized form:
    [hasWallet] is false, [retrieveKey] throws [Wallet not found] and a
    second [deleteWallet] returns false.  No buffer is touched. *)
Theorem deleteWallet_removes w walletId password :
  let out := deleteWallet w walletId in
  out.2 = hasWallet w walletId
  /\ heap out.1 = heap w
  /\ (forall other,
        sanitize other = sanitize walletId ->
        hasWallet out.1 other = false
        /\ getWalletInfo out.1 other = None
        /\ retrieveKey out.1 other password = (out.1, Throw (WalletNotFound other))
        /\ deleteWallet out.1 other = (out.1, false)).
Proof.
  intros out. subst out. unfold deleteWallet, hasWallet.
  assert (Hgone : forall w' other,
             files w' !! getKeyFilePath other = None ->
             bool_decide (is_Some (files w' !! getKeyFilePath other)) = false
             /\ getWalletInfo w' other = None
             /\ retrieveKey w' other password = (w', Throw (WalletNotFound other))
             /\ (match files w' !! getKeyFilePath other with
                 | None => (w', false)
                 | Some _ =>
                     ({| files := delete (getKeyFilePath other) (files w');
                         heap := heap w' |}, true)
                 end) = (w', false)).
  { intros w' other Hnone. unfold getWalletInfo, retrieveKey. rewrite Hnone.
    by repeat split. }
  destruct (files w !! getKeyFilePath walletId) as [data|] eqn:Hfile; cbn [fst snd].
  - split; [by rewrite bool_decide_eq_true_2|]. split; [done|].
    intros other Hsame%getKeyFilePath_inj. apply Hgone. cbn [files].
    rewrite Hsame. apply lookup_delete_eq.
  - split; [symmetry; apply bool_decide_eq_false; by intros [? ?]|]. split; [done|].
    intros other Hsame%getKeyFilePath_inj. apply Hgone. by rewrite Hsame.
Qed.

(** X4. Wallets whose ids have different sanitized forms are independent:
    neither [storeKey] nor [deleteWallet] under one id changes the key file,
    [hasWallet] or [getWalletInfo] of the other. *)
Theorem other_wallets_untouched w walletId other secretKey publicKey password metadata
    salt iv now :
  sanitize other <> sanitize walletId ->
  let stored :=
    (storeKey w walletId secretKey publicKey password metadata salt iv now).1 in
  let deleted := (deleteWallet w walletId).1 in
  (files stored !! getKeyFilePath other = files w !! getKeyFilePath other
   /\ hasWallet stored other = hasWallet w other
   /\ getWalletInfo stored other = getWalletInfo w other)
  /\ (files deleted !! getKeyFilePath other = files w !! getKeyFilePath other
      /\ hasWallet deleted other = hasWallet w other
      /\ getWalletInfo deleted other = getWalletInfo w other).
Proof.
  intros Hdiff stored deleted.
  assert (Hpath : getKeyFilePath other <> getKeyFilePath walletId).
  { intros Heq. by apply Hdiff, getKeyFilePath_inj. }
  assert (Hstored : files stored !! getKeyFilePath other
                    = files w !! getKeyFilePath other).
  { by apply storeKey_other_files. }
  assert (Hdeleted : files deleted !! getKeyFilePath other
                     = files w !! getKeyFilePath other).
  { subst deleted. unfold deleteWallet.
    destruct (files w !! getKeyFilePath walletId); [|done].
    cbn [fst files]. by apply lookup_delete_ne. }
  unfold hasWallet, getWalletInfo. by rewrite Hstored, Hdeleted.
Qed.

(** [retrieveKey] on a document written by [storeKey], under its
    password, with the heap it leaves. *)
Lemma retrieveKey_sealed_heap `{!CryptoCorrect crypto} w walletId plain publicKey
    password metadata salt iv now :
  files w !! getKeyFilePath walletId
    = Some (sealedRecord plain publicKey password metadata salt iv now) ->
  retrieveKey w walletId password
  = ({| files := files w;
        heap := heap w ++ [Buffer.zeros (pbkdf2 password salt); plain; plain] |},
     Ok {| secretKey := S (S (length (heap w)));
           handlePublicKey := publicKey;
           decrypted := S (length (heap w)) |}).
Proof.
  intros Hfile.
  pose proof (retrieveKey_cases w walletId password) as Hcases. cbn zeta in Hcases.
  rewrite Hfile in Hcases. unfold sealedRecord in Hcases.
  cbn -[Hex.encode Hex.decode Buffer.zeros length app] in Hcases.
  rewrite !hex_decode_encode in Hcases.
  by rewrite gcm_decrypt_encrypt in Hcases.
Qed.

(** X5. [changePassword] with the right old password re-encrypts the same
    secret key under the new password with the new salt and IV: the public
    key and the metadata are kept, [createdAt] becomes the time of the
    change, no other file changes, and [retrieveKey] under the new password
    returns the secret key.  When [retrieveKey] under the old password
    throws, [changePassword] throws the same error and no file changes. *)
Theorem changePassword_reencrypts `{!CryptoCorrect crypto} w walletId oldPassword
    newPassword salt iv now :
  let out := changePassword w walletId oldPassword newPassword salt iv now in
  (forall plain publicKey metadata salt0 iv0 created,
      files w !! getKeyFilePath walletId
        = Some (sealedRecord plain publicKey oldPassword metadata salt0 iv0 created) ->
      out.2 = Ok tt
      /\ files out.1
         = <[getKeyFilePath walletId :=
               sealedRecord plain publicKey newPassword metadata salt iv now]> (files w)
      /\ exists key w',
           retrieveKey out.1 walletId newPassword = (w', Ok key)
           /\ Buffer.read (heap w') (secretKey key) = plain
           /\ handlePublicKey key = publicKey)
  /\ (forall reason,
        (retrieveKey w walletId oldPassword).2 = Throw reason ->
        out.2 = Throw reason /\ files out.1 = files w).
Proof.
  intros out. split.
  - intros plain publicKey metadata salt0 iv0 created Hfile. subst out.
    unfold changePassword. rewrite (retrieveKey_sealed_heap _ _ _ _ _ _ _ _ _ Hfile).
    set (n := length (heap w)).
    set (w1 := {| files := files w; heap := _ |}).
    assert (Hinfo : getWalletInfo w1 walletId
                    = Some {| infoPublicKey := publicKey;
                              infoCreatedAt := created;
                              infoMetadata := metadata |}).
    { unfold getWalletInfo. subst w1. cbn [files]. by rewrite Hfile. }
    rewrite Hinfo. cbn [mbind option_bind infoMetadata secretKey handlePublicKey].
    assert (Hlen : length (heap w1) = S (S (S n))).
    { subst w1. cbn [heap]. rewrite length_app. cbn [length]. lia. }
    assert (Hplain : Buffer.read (heap w1) (S (S n)) = plain).
    { subst w1 n. cbn [heap].
      by rewrite_at_offset
           (read_app_new (heap w) [Buffer.zeros (pbkdf2 oldPassword salt0); plain; plain] 2). }
    rewrite storeKey_unfold by lia. rewrite Hplain, Hlen.
    cbn [fst snd].
    set (stored := sealedRecord plain publicKey newPassword metadata salt iv now).
    split; [done|]. split; [done|].
    eexists _, _. split.
    + apply (retrieveKey_sealed_heap _ walletId plain publicKey newPassword metadata
                 salt iv now).
        unfold cleanup. cbn [files]. apply lookup_insert_eq.
    + cbn [heap secretKey handlePublicKey]. split; [|done].
        set (h := heap (cleanup _ _)).
        by rewrite_at_offset
             (read_app_new h [Buffer.zeros (pbkdf2 newPassword salt); plain; plain] 2).
  - intros reason Hthrow. subst out. unfold changePassword.
    pose proof (retrieveKey_buffer_facts w walletId oldPassword) as [Hfiles _].
    destruct (retrieveKey w walletId oldPassword) as [w1 [key|r]]; [done|].
    cbn in *. by injection Hthrow as ->.
Qed.

(** [s ++ ".encrypted.json"] ends with the suffix. *)
Lemma endsWith_suffix s : endsWith (s ++ SUFFIX) SUFFIX = true.
Proof.
  induction s as [|c rest IH]; [reflexivity|].
  change (String c rest ++ SUFFIX)%string with (String c (rest ++ SUFFIX)).
  cbn [endsWith]. by destruct (String.eqb _ _).
Qed.

(** Removing the suffix from the key file name of a sanitized id gives the
    id back. *)
Lemma replaceFirst_suffix s :
  allSafe s = true -> replaceFirst (s ++ SUFFIX) SUFFIX "" = s.
Proof.
  induction s as [|c rest IH]; [reflexivity|].
  cbn [allSafe]. intros [Hc Hrest]%andb_true_iff.
  change (String c rest ++ SUFFIX)%string with (String c (rest ++ SUFFIX)).
  cbn [replaceFirst]. unfold SUFFIX at 1. cbn [String.prefix].
  destruct (ascii_dec "." c) as [<-|Hne]; [discriminate Hc|].
  by rewrite IH.
Qed.

(** A directory stays one of key files only under [storeKey] and
    [deleteWallet]; an empty directory is one. *)
Lemma onlyKeyFiles_kept w walletId secretKey publicKey password metadata salt iv now :
  (files w = ∅ -> onlyKeyFiles w)
  /\ (onlyKeyFiles w ->
      onlyKeyFiles
        (storeKey w walletId secretKey publicKey password metadata salt iv now).1
      /\ onlyKeyFiles (deleteWallet w walletId).1).
Proof.
  split.
  - intros Hempty f [data Hdata]. rewrite Hempty in Hdata. by rewrite lookup_empty in Hdata.
  - intros Honly. split.
    + intros f Hf. destruct (decide (f = getKeyFilePath walletId)) as [->|Hne];
        [by eexists|].
      apply Honly. by rewrite storeKey_other_files in Hf.
    + intros f Hf. unfold deleteWallet in Hf.
      destruct (files w !! getKeyFilePath walletId); [|by apply Honly].
      cbn [fst files] in Hf. apply Honly.
      destruct (decide (f = getKeyFilePath walletId)) as [->|Hne].
      * rewrite lookup_delete_eq in Hf. by destruct Hf.
      * by rewrite lookup_delete_ne in Hf.
Qed.

(** X6. In a directory that holds key files only, [listWallets] returns
    exactly the sanitized forms of the ids that have a wallet (so a wallet
    stored as ["bot/1"] is listed as ["bot_1"]); every name it returns is
    unchanged by sanitizing and is itself an id under which [hasWallet]
    holds. *)
Theorem listWallets_lists_sanitized_ids w :
  onlyKeyFiles w ->
  forall listed,
    (listed ∈ listWallets w
     <-> exists walletId, hasWallet w walletId = true /\ listed = sanitize walletId)
    /\ (listed ∈ listWallets w ->
        sanitize listed = listed /\ hasWallet w listed = true).
Proof.
  intros Honly listed.
  assert (Hiff : listed ∈ listWallets w
                 <-> exists walletId,
                     hasWallet w walletId = true /\ listed = sanitize walletId).
  { unfold listWallets, hasWallet. rewrite list_elem_of_fmap. split.
    - intros (f & -> & Hf). apply list_elem_of_filter in Hf as [_ Hf].
      apply list_elem_of_fmap in Hf as ([f' data] & -> & Hin).
      apply elem_of_map_to_list in Hin. cbn [fst].
      destruct (Honly f') as [walletId ->]; [by eexists|].
      exists walletId. split.
      + apply bool_decide_eq_true. by eexists.
      + unfold getKeyFilePath. apply replaceFirst_suffix, sanitize_allSafe.
    - intros (walletId & Hhas & ->). apply bool_decide_eq_true in Hhas as [data Hdata].
      exists (getKeyFilePath walletId). split.
      + unfold getKeyFilePath. symmetry. apply replaceFirst_suffix, sanitize_allSafe.
      + apply list_elem_of_filter. split; [apply endsWith_suffix|].
        apply list_elem_of_fmap. exists (getKeyFilePath walletId, data).
        split; [done|]. by apply elem_of_map_to_list. }
  split; [done|].
  intros (walletId & Hhas & ->)%Hiff.
  assert (Hfixed : sanitize (sanitize walletId) = sanitize walletId)
    by apply sanitize_safe, sanitize_allSafe.
  split; [done|].
  unfold hasWallet in *.
  by rewrite (proj2 (getKeyFilePath_inj (sanitize walletId) walletId) Hfixed).
Qed.

End KeyStoreBehaviour.

(** ** More on RateLimiter *)

Lemma numLt_true (a b : number) : numLt a b = true <-> (a < b)%Q.
Proof. apply (numGt_true b a). Qed.

Lemma numLt_false (a b : number) : numLt a b = false <-> (b <= a)%Q.
Proof. apply (numGt_false b a). Qed.

Lemma count_as_number_le (k m : nat) :
  (k <= m)%nat -> (inject_Z (Z.of_nat k) <= inject_Z (Z.of_nat m))%Q.
Proof. intros Hle. rewrite <- Zle_Qle. lia. Qed.

Lemma filter_all {A} (P : A -> Prop) `{!forall x, Decision (P x)} (l : list A) :
  (forall x, x ∈ l -> P x) -> filter P l = l.
Proof.
  induction l as [|x l IH]; intros Hall; [done|].
  rewrite filter_cons_True by (apply Hall; left).
  f_equal. apply IH. intros y Hy. apply Hall. by right.
Qed.

Lemma filter_none {A} (P : A -> Prop) `{!forall x, Decision (P x)} (l : list A) :
  (forall x, x ∈ l -> ~ P x) -> filter P l = [].
Proof.
  induction l as [|x l IH]; intros Hall; [done|].
  rewrite filter_cons_False by (apply Hall; left).
  apply IH. intros y Hy. apply Hall. by right.
Qed.

Section RateLimiterBehaviour.
Import RateLimiter.
Implicit Types (transactions : gmap string (list Z)) (agentId : string).

(** The timestamps of an identity after one more [recordTransaction]. *)
Lemma recordTransaction_lookup transactions agentId now :
  let old := default [] (transactions !! agentId) in
  recordTransaction transactions agentId now !! agentId
  = Some (if (100 <? length (old ++ [now]))%nat then tail (old ++ [now])
          else old ++ [now]).
Proof. intros old. unfold recordTransaction. by rewrite lookup_insert_eq. Qed.

(** X7. The limiter keeps at most 100 timestamps per identity: this holds
    of a new limiter and [recordTransaction] keeps it.  Hence a limit above
    100 per minute is never enforced, whatever was recorded; and a limit of 0
    or less refuses every call. *)
Theorem rate_limiter_keeps_100_timestamps transactions agentId now limit :
  bounded ∅
  /\ (bounded transactions -> bounded (recordTransaction transactions agentId now))
  /\ (bounded transactions -> (100 < limit)%Q ->
      canExecute transactions agentId limit now = true)
  /\ ((limit <= 0)%Q -> canExecute transactions agentId limit now = false).
Proof.
  split; [|split; [|split]].
  - intros id txTimes Hlookup. by rewrite lookup_empty in Hlookup.
  - intros Hbounded id txTimes Hlookup.
    destruct (decide (id = agentId)) as [->|Hne].
    + rewrite recordTransaction_lookup in Hlookup. injection Hlookup as <-.
      assert (Hold : (length (default [] (transactions !! agentId)) <= 100)%nat).
      { destruct (transactions !! agentId) as [old|] eqn:E; cbn; [|lia].
        by apply (Hbounded agentId). }
      destruct (100 <? _)%nat eqn:Hfull.
      * rewrite length_tl, length_app. cbn [length]. lia.
      * apply Nat.ltb_ge in Hfull. lia.
    + unfold recordTransaction in Hlookup. rewrite lookup_insert_ne in Hlookup by done.
      by apply (Hbounded id).
  - intros Hbounded Hlimit. unfold canExecute. apply numLt_true.
    set (old := default [] (transactions !! agentId)).
    assert (Hold : (length old <= 100)%nat).
    { subst old. destruct (transactions !! agentId) as [l|] eqn:E; cbn; [|lia].
      by apply (Hbounded agentId). }
    pose proof (length_filter (fun t => now - t < windowMs) old) as Hfilter.
    apply Qle_lt_trans with (y := inject_Z (Z.of_nat 100)); [|done].
    apply count_as_number_le. lia.
  - intros Hlimit. unfold canExecute. apply numLt_false.
    apply Qle_trans with (y := 0%Q); [done|].
    apply (count_as_number_le 0). lia.
Qed.

(** The timestamps after a run of [recordTransaction] that stays within
    100 entries. *)
Lemma recordAll_lookup transactions agentId times :
  (length (default [] (transactions !! agentId) ++ times) <= 100)%nat ->
  default [] (recordAll transactions agentId times !! agentId)
  = default [] (transactions !! agentId) ++ times.
Proof.
  revert transactions. induction times as [|t rest IH]; intros transactions Hlen.
  - by rewrite app_nil_r.
  - unfold recordAll. cbn [foldl].
    change (foldl _ ?m rest) with (recordAll m agentId rest).
    rewrite length_app in Hlen. cbn [length] in Hlen.
    assert (Hstep : default [] (recordTransaction transactions agentId t !! agentId)
                    = default [] (transactions !! agentId) ++ [t]).
    { rewrite recordTransaction_lookup. cbn [default].
      rewrite (proj2 (Nat.ltb_ge _ _)); [done|].
      rewrite length_app. cbn [length]. lia. }
    rewrite IH; rewrite Hstep.
    + by rewrite <- (assoc_L (++)).
    + rewrite !length_app. cbn [length]. lia.
Qed.

(** [recordTransaction] for one identity leaves the others alone. *)
Lemma recordAll_other transactions agentId times other :
  other <> agentId ->
  recordAll transactions agentId times !! other = transactions !! other.
Proof.
  intros Hne. revert transactions.
  induction times as [|t rest IH]; intros transactions; [done|].
  unfold recordAll. cbn [foldl].
  change (foldl _ ?m rest) with (recordAll m agentId rest).
  rewrite IH. unfold recordTransaction. by rewrite lookup_insert_ne.
Qed.

(** X8. Sliding window.  After up to 100 transactions recorded for an
    identity of a new limiter: if all of them are less than 60 000 ms old,
    [canExecute] holds exactly when their number is below the limit (so with
    a limit of [n] the call after the [n]-th is refused); once all of them
    are 60 000 ms old or older, [canExecute] holds again for every positive
    limit.  Other identities are not affected. *)
Theorem rate_limit_sliding_window agentId times limit now :
  (length times <= 100)%nat ->
  let transactions := recordAll ∅ agentId times in
  ((forall t, t ∈ times -> now - t < 60000) ->
     canExecute transactions agentId limit now
     = numLt (inject_Z (Z.of_nat (length times))) limit)
  /\ ((forall t, t ∈ times -> 60000 <= now - t) ->
      canExecute transactions agentId limit now = numLt 0%Q limit)
  /\ (forall other otherLimit,
        other <> agentId ->
        canExecute transactions other otherLimit now = numLt 0%Q otherLimit).
Proof.
  intros Hlen transactions.
  assert (Hstored : default [] (transactions !! agentId) = times).
  { subst transactions. rewrite recordAll_lookup; rewrite lookup_empty; [done|].
    by cbn. }
  split; [|split].
  - intros Hrecent. unfold canExecute. rewrite Hstored.
    by rewrite (filter_all _ times Hrecent).
  - intros Hold. unfold canExecute. rewrite Hstored.
    rewrite filter_none; [done|]. intros t Ht. specialize (Hold t Ht).
    unfold windowMs. lia.
  - intros other otherLimit Hne. unfold canExecute. subst transactions.
    by rewrite recordAll_other, lookup_empty.
Qed.

End RateLimiterBehaviour.

(** ** More on VolumeTracker *)

Section VolumeBehaviour.
Import VolumeTracker.
Implicit Types (dailyVolume : gmap string DailyRecord) (agentId : string).


(** The accumulator of a record of today after a run of [addVolume] calls
    of today. *)
Lemma addAll_same_date dailyVolume agentId calls now record :
  (forall call, call ∈ calls -> IsoDate.isoDate call.2 = IsoDate.isoDate now) ->
  dailyVolume !! agentId = Some record ->
  date record = IsoDate.isoDate now ->
  getVolume (addAll dailyVolume agentId calls) agentId now
  = foldl Qplus (amount record) calls.*1.
Proof.
  revert dailyVolume record.
  induction calls as [|[amt t] rest IH]; intros dailyVolume record Hdates Hrecord Hdate.
  - unfold addAll, getVolume. cbn [foldl fmap list_fmap]. rewrite Hrecord.
    by rewrite Hdate, String.eqb_refl.
  - unfold addAll. cbn [foldl fst snd fmap list_fmap].
    change (foldl _ ?m rest) with (addAll m agentId rest).
    assert (Ht : IsoDate.isoDate t = IsoDate.isoDate now)
      by (apply (Hdates (amt, t)); left).
    apply (IH _ {| amount := (amount record + amt)%Q; date := date record |}).
    + intros call Hcall. apply Hdates. by right.
    + unfold addVolume. rewrite Hrecord, Ht, Hdate, String.eqb_refl. cbn [negb].
      apply lookup_insert_eq.
    + done.
Qed.

(** X9. Amounts added on one calendar date accumulate in the order of the
    calls.  After [addVolume] calls made at times of the date of [now]:
    when the identity had a record of that date, [getVolume] at [now] is its
    amount with the amounts of the calls added one after the other, from the
    left; when it had no record, or one of another date, the first call
    starts over at its own amount and the later amounts are added to that. *)
Theorem volume_adds_up_in_call_order dailyVolume agentId calls now :
  (forall call, call ∈ calls -> IsoDate.isoDate call.2 = IsoDate.isoDate now) ->
  (forall record,
      dailyVolume !! agentId = Some record ->
      date record = IsoDate.isoDate now ->
      getVolume (addAll dailyVolume agentId calls) agentId now
      = foldl Qplus (amount record) calls.*1)
  /\ ((forall record, dailyVolume !! agentId = Some record ->
                      date record <> IsoDate.isoDate now) ->
      forall first rest,
        calls = first :: rest ->
        getVolume (addAll dailyVolume agentId calls) agentId now
        = foldl Qplus first.1 rest.*1).
Proof.
  intros Hdates. split.
  - intros record Hrecord Hdate. by apply addAll_same_date.
  - intros Hstale [amt t] rest ->.
    assert (Ht : IsoDate.isoDate t = IsoDate.isoDate now)
      by (apply (Hdates (amt, t)); left).
    unfold addAll. cbn [foldl fst snd].
    change (foldl _ ?m rest) with (addAll m agentId rest).
    apply (addAll_same_date _ _ _ _ {| amount := amt; date := IsoDate.isoDate t |}).
    + intros call Hcall. apply Hdates. by right.
    + unfold addVolume. destruct (dailyVolume !! agentId) as [record|] eqn:E.
      * specialize (Hstale record eq_refl). rewrite Ht.
        apply String.eqb_neq in Hstale. rewrite Hstale. cbn [negb].
        apply lookup_insert_eq.
      * apply lookup_insert_eq.
    + done.
Qed.

End VolumeBehaviour.

(** ** More on ExecutionEngine *)

Section EngineBehaviour.
Context {crypto : Crypto}.
Import ExecutionEngine.
Implicit Types (e : State) (w : World) (L : Ledger) (clock : Clock).
Implicit Types (agentId walletPassword : string) (params : ActionParams).

(** A request is allowed only for a registered identity. *)
Lemma validatePermissions_allowed_registered e agentId params :
  validatePermissions e agentId params = Allowed ->
  exists perms, permissions e !! agentId = Some perms.
Proof.
  unfold validatePermissions. destruct (permissions e !! agentId) as [perms|]; [|done].
  by exists perms.
Qed.


(** X10. [execute] never changes the permission table and never writes to
    the key store, and it leaves the buffers that existed before the call as
    they were.  When the call went as far as key retrieval and the key was
    decrypted, the three buffers of [retrieveKey] that the source wipes are
    zero-filled when [execute] returns, whether the submission succeeded or
    not: the derived key, and the [decrypted] and [secretKey] buffers of the
    handle, [cleanup] being the last call on the key store. *)
Theorem execute_wipes_the_key_handle e w L clock agentId walletPassword params :
  let out := execute e w L clock agentId walletPassword params in
  permissions (engine out) = permissions e
  /\ files (world out) = files w
  /\ (forall r, (r < length (heap w))%nat ->
                Buffer.read (heap (world out)) r = Buffer.read (heap w) r)
  /\ (forall w1 key,
        SecureKeyStore.retrieveKey w agentId walletPassword = (w1, Ok key) ->
        trace out <> [] ->
        Buffer.blank (Buffer.read (heap (world out)) (length (heap w)))
        /\ Buffer.blank (Buffer.read (heap (world out)) (SecureKeyStore.decrypted key))
        /\ Buffer.blank (Buffer.read (heap (world out)) (SecureKeyStore.secretKey key))
        /\ last (trace out) = Some CallCleanup).
Proof.
  intros out. subst out. unfold execute.
  destruct (validatePermissions e agentId params); [|done].
  destruct (permissions e !! agentId) as [perms|]; [|done].
  destruct (negb _); [done|].
  destruct (numGt _ _); [done|].
  pose proof (retrieveKey_buffer_facts w agentId walletPassword) as Hfacts.
  cbn zeta in Hfacts.
  destruct (SecureKeyStore.retrieveKey w agentId walletPassword) as [w1 [key|reason]];
    cbn [fst snd] in Hfacts; destruct Hfacts as (Hfiles & Hold & Hderived & Hkey).
  2: { cbn [engine world trace]. repeat split; try done. }
  destruct Hkey as (Horder & _ & Hcfiles & Hsecret & Hdecrypted & Hother).
  assert (Hwiped :
    permissions e = permissions e
    /\ files (SecureKeyStore.cleanup w1 key) = files w
    /\ (forall r, (r < length (heap w))%nat ->
          Buffer.read (heap (SecureKeyStore.cleanup w1 key)) r = Buffer.read (heap w) r)
    /\ Buffer.blank (Buffer.read (heap (SecureKeyStore.cleanup w1 key)) (length (heap w)))
    /\ Buffer.blank (Buffer.read (heap (SecureKeyStore.cleanup w1 key))
                       (SecureKeyStore.decrypted key))
    /\ Buffer.blank (Buffer.read (heap (SecureKeyStore.cleanup w1 key))
                       (SecureKeyStore.secretKey key))).
  { split; [done|]. split; [done|]. split; [|split; [|done]].
    - intros r Hr. rewrite Hother by lia. by apply Hold.
    - rewrite Hother by lia. done. }
  destruct Hwiped as (_ & Hf & Ho & Hd & Hdec & Hsec).
  destruct (signAndSubmit L _ params); cbn [engine world trace permissions];
    (split; [done|]); (split; [done|]); (split; [done|]);
    intros w1' key' [= <- <-] _; repeat split; done.
Qed.

(** X11. The execution history is append-only, and a call adds to it
    exactly when it went as far as key retrieval: a request refused by the
    permission, rate or volume check is not recorded, a failure after that
    point and a success are recorded as the last entry.  The history is the
    same whichever agent it is asked for. *)
Theorem execution_history_append_only e w L clock agentId walletPassword params asked :
  let out := execute e w L clock agentId walletPassword params in
  getExecutionHistory (engine out) asked
  = match trace out with
    | [] => getExecutionHistory e None
    | _ :: _ => getExecutionHistory e None ++ [result out]
    end.
Proof.
  intros out. subst out. unfold execute, getExecutionHistory.
  destruct (validatePermissions e agentId params) eqn:Hvalid; [|done].
  destruct (validatePermissions_allowed_registered _ _ _ Hvalid) as [perms ->].
  destruct (negb _); [done|].
  destruct (numGt _ _); [done|].
  destruct (SecureKeyStore.retrieveKey w agentId walletPassword) as [w1 [key|reason]];
    [|done].
  by destruct (signAndSubmit L _ params).
Qed.

(** The parameters of a request for which a transaction was built. *)
Lemma buildTransaction_requirements_inv L fromPubkey params transaction :
  buildTransaction L fromPubkey params = Ok transaction ->
  match action params with
  | transfer_sol =>
      is_Some (truthy (destination params)) /\ is_Some (amount params)
  | transfer_token =>
      is_Some (truthy (tokenAccount params))
      /\ is_Some (truthy (destination params))
      /\ (exists amt, amount params = Some amt /\ ~ (amt == 0)%Q)
      /\ (exists dec, decimals params = Some dec /\ ~ (dec == 0)%Q)
  | create_token_account => is_Some (truthy (mint params))
  | close_account => False
  | custom =>
      exists ix ixs,
        instructions params = Some (ix :: ixs)
        /\ txInstructions transaction = CallerInstruction <$> ix :: ixs
  end.
Proof.
  unfold buildTransaction. destruct (action params).
  - destruct (truthy (destination params)), (amount params); try done.
  - destruct (truthy (tokenAccount params)), (truthy (destination params)),
      (amount params) as [amt|], (decimals params) as [dec|]; try done.
    destruct (Qeq_bool amt 0) eqn:Hamt; [done|].
    destruct (Qeq_bool dec 0) eqn:Hdec; [done|].
    intros _. repeat split; try done.
    + exists amt. split; [done|]. intros Hzero. apply Qeq_bool_iff in Hzero. congruence.
    + exists dec. split; [done|]. intros Hzero. apply Qeq_bool_iff in Hzero. congruence.
  - by destruct (truthy (mint params)).
  - done.
  - destruct (instructions params) as [[|ix ixs]|]; try done.
    intros [= <-]. by exists ix, ixs.
Qed.

(** X12. What [buildTransaction] requires.  A transaction is built for
    [transfer_sol] only with a non-empty destination and an amount (0 is
    accepted); for [transfer_token] only with a token account, a destination,
    a non-zero amount and a non-zero number of decimals; for
    [create_token_account] only with a mint; for [custom] only with at least
    one instruction; and never for [close_account]. *)
Theorem buildTransaction_requirements L fromPubkey params transaction :
  buildTransaction L fromPubkey params = Ok transaction ->
  match action params with
  | transfer_sol =>
      is_Some (truthy (destination params)) /\ is_Some (amount params)
  | transfer_token =>
      is_Some (truthy (tokenAccount params))
      /\ is_Some (truthy (destination params))
      /\ (exists amt, amount params = Some amt /\ ~ (amt == 0)%Q)
      /\ (exists dec, decimals params = Some dec /\ ~ (dec == 0)%Q)
  | create_token_account => is_Some (truthy (mint params))
  | close_account => False
  | custom =>
      exists ix ixs,
        instructions params = Some (ix :: ixs)
        /\ txInstructions transaction = CallerInstruction <$> ix :: ixs
  end.
Proof. apply buildTransaction_requirements_inv. Qed.

(** [close_account] and token transfers without a non-zero number of
    decimals cannot be built. *)
Lemma buildTransaction_unbuildable L fromPubkey params :
  action params = close_account
  \/ (action params = transfer_token /\ (orZero (decimals params) == 0)%Q) ->
  exists reason, buildTransaction L fromPubkey params = Throw reason.
Proof.
  intros Hcase.
  destruct (buildTransaction L fromPubkey params) as [transaction|reason] eqn:Hbuild;
    [|by eexists].
  apply buildTransaction_requirements_inv in Hbuild.
  destruct Hcase as [Hclose|[Htoken Hzero]].
  - by rewrite Hclose in Hbuild.
  - rewrite Htoken in Hbuild. destruct Hbuild as (_ & _ & _ & dec & Hdec & Hnonzero).
    rewrite Hdec in Hzero. destruct Hnonzero. by rewrite <- orZero_some.
Qed.

(** X13. A [close_account] request, and a [transfer_token] request whose
    [decimals] is absent or 0, never succeeds, whatever the ledger does: it
    can pass every policy check and have its key decrypted, but no
    transaction is built for it, so [execute] returns [success = false] and
    neither tracker changes. *)
Theorem unbuildable_requests_never_succeed e w L clock agentId walletPassword params :
  action params = close_account
  \/ (action params = transfer_token /\ (orZero (decimals params) == 0)%Q) ->
  let out := execute e w L clock agentId walletPassword params in
  success (result out) = false
  /\ rateLimiter (engine out) = rateLimiter e
  /\ volumeTracker (engine out) = volumeTracker e.
Proof.
  intros Hcase out. subst out.
  destruct (execute_cases e w L clock agentId walletPassword params)
    as [(Hreach & _) | (_ & Hfail & Hrate & Hvolume & _)]; [|done].
  destruct Hreach as (perms & w1 & key & signature & _ & _ & _ & _ & _ & Hconfirmed).
  destruct Hconfirmed as (publicKey & transaction & _ & _ & _ & Hbuild & _).
  destruct (buildTransaction_unbuildable L publicKey params Hcase) as [reason Hthrow].
  congruence.
Qed.


(** X15. A registered read-only identity cannot execute anything: every
    request, whatever its action, amount and destination, is rejected with
    the read-only reason before the rate limiter, the volume tracker or the
    key store are consulted.  A request in the name of an identity that was
    never registered is rejected as not registered in the same way. *)
Theorem read_only_and_unknown_agents_rejected e w L clock agentId walletPassword params :
  let out := execute e w L clock agentId walletPassword params in
  (forall perms,
      permissions e !! agentId = Some perms ->
      level perms = READ_ONLY ->
      success (result out) = false
      /\ error (result out) = Some ReadOnlyAgent
      /\ trace out = [] /\ engine out = e /\ world out = w)
  /\ (permissions e !! agentId = None ->
      success (result out) = false
      /\ error (result out) = Some AgentNotRegistered
      /\ trace out = [] /\ engine out = e /\ world out = w).
Proof.
  intros out. subst out. split.
  - intros perms Hperms Hlevel.
    rewrite (execute_denied _ _ _ _ _ _ _ ReadOnlyAgent); [done|].
    unfold validatePermissions. rewrite Hperms.
    by rewrite bool_decide_eq_true_2.
  - intros Hnone.
    rewrite (execute_denied _ _ _ _ _ _ _ AgentNotRegistered); [done|].
    unfold validatePermissions. by rewrite Hnone.
Qed.

(** X16. The approval threshold is not enforced: registering an identity
    with another value of [requiresApproval], or with none, changes nothing in
    what [execute] returns, calls or records for any request. *)
Theorem requiresApproval_is_not_enforced e w L clock agentId walletPassword params
    perms threshold :
  let perms' :=
    {| level := level perms;
       maxTransactionAmount := maxTransactionAmount perms;
       maxDailyVolume := maxDailyVolume perms;
       allowedActions := allowedActions perms;
       allowedDestinations := allowedDestinations perms;
       rateLimit := rateLimit perms;
       requiresApproval := threshold |} in
  let out := execute (registerAgent e agentId perms) w L clock agentId walletPassword
               params in
  let out' := execute (registerAgent e agentId perms') w L clock agentId walletPassword
                params in
  result out' = result out
  /\ trace out' = trace out
  /\ world out' = world out
  /\ rateLimiter (engine out') = rateLimiter (engine out)
  /\ volumeTracker (engine out') = volumeTracker (engine out)
  /\ executionLog (engine out') = executionLog (engine out).
Proof.
  intros perms' out out'. subst out out'.
  unfold execute, validatePermissions, registerAgent.
  cbn [permissions rateLimiter volumeTracker executionLog].
  rewrite !lookup_insert_eq. subst perms'.
  cbn [level allowedActions maxTransactionAmount allowedDestinations rateLimit
         maxDailyVolume].
  destruct (bool_decide (level perms = READ_ONLY)); [done|].
  destruct (negb (bool_decide (action params ∈ allowedActions perms))); [done|].
  destruct (numGt (orZero (amount params)) (maxTransactionAmount perms)); [done|].
  destruct (allowedDestinations perms) as [allowed|],
           (truthy (destination params)) as [dest|];
    try destruct (negb (bool_decide (dest ∈ allowed))); try done;
    (destruct (negb (RateLimiter.canExecute _ _ _ _)); [done|];
     destruct (numGt _ _); [done|];
     destruct (SecureKeyStore.retrieveKey w agentId walletPassword)
       as [w1 [key|reason]]; [|done];
     by destruct (signAndSubmit L _ params)).
Qed.

End EngineBehaviour.

Section PolicyRejections.
Context {crypto : Crypto}.
Import ExecutionEngine.

(** X23. A request that [validatePermissions] allows but the rate limiter
    refuses is rejected with [Rate limit exceeded], also when it is over the
    daily volume as well: the rate limit is checked first.  A request the
    rate limiter accepts but whose amount would take the volume used over the
    daily limit is rejected with the volume reason.  In both cases [execute]
    returns before any call on the key store and changes nothing: not the
    trackers, not the history, not a buffer. *)
Theorem rate_and_volume_rejections_touch_nothing e w L clock agentId walletPassword
    params perms :
  validatePermissions e agentId params = Allowed ->
  permissions e !! agentId = Some perms ->
  let out := execute e w L clock agentId walletPassword params in
  let currentVolume :=
    VolumeTracker.getVolume (volumeTracker e) agentId (atVolumeCheck clock) in
  (RateLimiter.canExecute (rateLimiter e) agentId (rateLimit perms) (atRateCheck clock)
     = false ->
   success (result out) = false
   /\ error (result out) = Some RateLimitExceeded
   /\ trace out = [] /\ engine out = e /\ world out = w)
  /\ (RateLimiter.canExecute (rateLimiter e) agentId (rateLimit perms)
        (atRateCheck clock) = true ->
      (maxDailyVolume perms < currentVolume + orZero (amount params))%Q ->
      success (result out) = false
      /\ error (result out)
         = Some (DailyVolumeLimitExceeded currentVolume (maxDailyVolume perms))
      /\ trace out = [] /\ engine out = e /\ world out = w).
Proof.
  intros Hallowed Hperms out currentVolume. subst out. unfold execute.
  rewrite Hallowed, Hperms. split.
  - by intros ->.
  - intros -> Hover. cbn [negb]. fold currentVolume.
    by rewrite (proj2 (numGt_true _ _) Hover).
Qed.

End PolicyRejections.

(** ** More on SecureAgenticWallet *)

Section WalletBehaviour.
Context {crypto : Crypto}.
Import ExecutionEngine SecureAgenticWallet.

(** [create] for an id without a wallet, in closed form.  The four
    buffers are, in the order of allocation: the copy of the secret key read
    for [storeKey], the derived key, the copy made by [storeKey], and the copy
    read for the final [fill(0)]. *)
Lemma create_fresh w config password keypair salt iv nowMeta nowStore :
  SecureKeyStore.hasWallet w (agentId config) = false ->
  create w config password keypair salt iv nowMeta nowStore
  = ({| files :=
          <[SecureKeyStore.getKeyFilePath (agentId config) :=
              SecureKeyStore.sealedRecord keypair.1 keypair.2 password
                (Some [("name"%string, MetaString (name config));
                       ("createdAt"%string, MetaNumber nowMeta)])
                salt iv nowStore]> (files w);
        heap := heap w ++ [keypair.1;
                           Buffer.zeros (pbkdf2 password salt);
                           Buffer.zeros keypair.1;
                           Buffer.zeros keypair.1] |},
     Ok {| executionEngine :=
             registerAgent ExecutionEngine.new (agentId config)
               (walletPermissions config);
           config := config;
           password := password |}).
Proof.
  intros Hfresh. unfold create. rewrite Hfresh. cbn [Buffer.alloc].
  set (w0 := {| files := files w; heap := heap w ++ [keypair.1] |}).
  assert (Hlen : length (heap w0) = S (length (heap w))).
  { subst w0. cbn [heap]. rewrite length_app. cbn [length]. lia. }
  assert (Hplain : Buffer.read (heap w0) (length (heap w)) = keypair.1).
  { subst w0. cbn [heap].
    by rewrite_at_offset (read_app_new (heap w) [keypair.1] 0). }
  rewrite storeKey_unfold by lia. rewrite Hplain, Hlen. cbn [fst snd files heap].
  f_equal. f_equal. subst w0. cbn [heap].
  rewrite <- !(assoc_L (++)). cbn [app].
  set (dk := pbkdf2 password salt).
  rewrite_at_offset (fill0_app_new (heap w) [keypair.1; dk; keypair.1] 2).
  rewrite_at_offset
    (fill0_app_new (heap w) (Buffer.fill0 [keypair.1; dk; keypair.1] 2) 1).
  change (Buffer.fill0 (Buffer.fill0 [keypair.1; dk; keypair.1] 2) 1)
    with [keypair.1; Buffer.zeros dk; Buffer.zeros keypair.1].
  rewrite <- !(assoc_L (++)). cbn [app].
  rewrite length_app. cbn [length]. rewrite (Nat.add_comm (length (heap w))).
  rewrite (fill0_app_new (heap w)
             [keypair.1; Buffer.zeros dk; Buffer.zeros keypair.1; keypair.1] 3).
  done.
Qed.

(** X17. [create] for an id without a wallet succeeds.  The new wallet has
    the given configuration and password and an engine in which the identity
    is registered with the permissions of the configuration and nothing is
    recorded yet; the store now has the wallet, [getAddress] is the public key
    of the generated key pair and [retrieveKey] under the password returns
    the generated secret key.  Of the buffers [create] and [storeKey] work
    with, the derived key, the copy made by [storeKey] and the copy read for
    the final [fill(0)] are zero-filled when [create] returns; the copy of the
    secret key that was read for [storeKey] is a different buffer and still
    holds the key; the buffers that existed before are untouched. *)
Theorem create_stores_and_registers `{!CryptoCorrect crypto} w config password keypair
    salt iv nowMeta nowStore :
  SecureKeyStore.hasWallet w (agentId config) = false ->
  let out := create w config password keypair salt iv nowMeta nowStore in
  let handedToStoreKey := length (heap w) in
  let derivedKey := S (length (heap w)) in
  let secretKeyBuffer := S (S (length (heap w))) in
  let zeroFilledAtTheEnd := S (S (S (length (heap w)))) in
  exists wallet,
    out.2 = Ok wallet
    /\ SecureAgenticWallet.config wallet = config
    /\ SecureAgenticWallet.password wallet = password
    /\ permissions (executionEngine wallet) !! agentId config
       = Some (walletPermissions config)
    /\ rateLimiter (executionEngine wallet) = ∅
    /\ volumeTracker (executionEngine wallet) = ∅
    /\ executionLog (executionEngine wallet) = []
    /\ SecureKeyStore.hasWallet out.1 (agentId config) = true
    /\ getAddress wallet out.1 = keypair.2
    /\ (forall r, (r < length (heap w))%nat ->
                  Buffer.read (heap out.1) r = Buffer.read (heap w) r)
    /\ Buffer.read (heap out.1) handedToStoreKey = keypair.1
    /\ Buffer.read (heap out.1) derivedKey = Buffer.zeros (pbkdf2 password salt)
    /\ Buffer.read (heap out.1) secretKeyBuffer = Buffer.zeros keypair.1
    /\ Buffer.read (heap out.1) zeroFilledAtTheEnd = Buffer.zeros keypair.1
    /\ exists key w',
         SecureKeyStore.retrieveKey out.1 (agentId config) password = (w', Ok key)
         /\ Buffer.read (heap w') (SecureKeyStore.secretKey key) = keypair.1.
Proof.
  intros Hfresh out. subst out. rewrite create_fresh by done.
  cbn [fst snd]. cbn zeta. eexists. split; [reflexivity|].
  cbn [SecureAgenticWallet.config SecureAgenticWallet.password executionEngine
         registerAgent permissions rateLimiter volumeTracker executionLog
         ExecutionEngine.new].
  set (created := {| files := _; heap := _ |}).
  assert (Hfile : files created !! SecureKeyStore.getKeyFilePath (agentId config)
                  = Some (SecureKeyStore.sealedRecord keypair.1 keypair.2 password
                            (Some [("name"%string, MetaString (name config));
                                   ("createdAt"%string, MetaNumber nowMeta)])
                            salt iv nowStore)).
  { subst created. cbn [files]. apply lookup_insert_eq. }
  set (buffers := [keypair.1; Buffer.zeros (pbkdf2 password salt);
                   Buffer.zeros keypair.1; Buffer.zeros keypair.1]).
  assert (Hheap : heap created = heap w ++ buffers) by done.
  repeat split; try done.
  - apply lookup_insert_eq.
  - unfold SecureKeyStore.hasWallet. rewrite Hfile.
    apply bool_decide_eq_true. by eexists.
  - unfold getAddress, SecureKeyStore.getWalletInfo.
    cbn [SecureAgenticWallet.config]. by rewrite Hfile.
  - intros r Hr. rewrite Hheap. by apply read_app_old.
  - rewrite Hheap. by rewrite_at_offset (read_app_new (heap w) buffers 0).
  - rewrite Hheap. by rewrite_at_offset (read_app_new (heap w) buffers 1).
  - rewrite Hheap. by rewrite_at_offset (read_app_new (heap w) buffers 2).
  - rewrite Hheap. by rewrite_at_offset (read_app_new (heap w) buffers 3).
  - eexists _, _. split; [exact (retrieveKey_sealed_heap _ _ _ _ _ _ _ _ _ Hfile)|].
    cbn [heap SecureKeyStore.secretKey].
    by rewrite_at_offset
         (read_app_new (heap created)
            [Buffer.zeros (pbkdf2 password salt); keypair.1; keypair.1] 2).
Qed.

(** [load] of a wallet written by [storeKey], under its password, in
    closed form. *)
Lemma load_sealed `{!CryptoCorrect crypto} w walletId permissions plain publicKey
    password metadata salt iv created :
  files w !! SecureKeyStore.getKeyFilePath walletId
    = Some (SecureKeyStore.sealedRecord plain publicKey password metadata salt iv
              created) ->
  load w walletId permissions password
  = ({| files := files w;
        heap := heap w ++ [Buffer.zeros (pbkdf2 password salt);
                           Buffer.zeros plain; Buffer.zeros plain] |},
     Ok {| executionEngine :=
             registerAgent ExecutionEngine.new walletId permissions;
           config := {| agentId := walletId;
                        name := nameOr metadata walletId;
                        walletPermissions := permissions |};
           password := password |}).
Proof.
  intros Hfile. unfold load, SecureKeyStore.hasWallet. rewrite Hfile.
  rewrite bool_decide_eq_true_2 by by eexists. cbn [negb].
  rewrite (retrieveKey_sealed_heap _ _ _ _ _ _ _ _ _ Hfile).
  unfold SecureKeyStore.getWalletInfo, SecureKeyStore.cleanup.
  cbn [files heap SecureKeyStore.decrypted SecureKeyStore.secretKey].
  rewrite Hfile. unfold SecureKeyStore.sealedRecord. cbn [SecureKeyStore.infoMetadata].
  cbn -[Hex.encode Buffer.fill0 Buffer.zeros nameOr app registerAgent].
  set (dk := pbkdf2 password salt).
  rewrite_at_offset (fill0_app_new (heap w) [Buffer.zeros dk; plain; plain] 1).
  by rewrite_at_offset
       (fill0_app_new (heap w) (Buffer.fill0 [Buffer.zeros dk; plain; plain] 1) 2).
Qed.

(** X18. A wallet made by [create] can be loaded again under the same
    password, with any permissions: [load] succeeds, the loaded wallet has the
    id and password of the created one and the permissions given to [load],
    and its name is the name given to [create], or the id when that name was
    empty.  The engine of the loaded wallet is new, and [load] changes no
    file. *)
Theorem create_then_load `{!CryptoCorrect crypto} w config password keypair salt iv
    nowMeta nowStore permissions :
  SecureKeyStore.hasWallet w (agentId config) = false ->
  let created := (create w config password keypair salt iv nowMeta nowStore).1 in
  let out := load created (agentId config) permissions password in
  exists wallet,
    out.2 = Ok wallet
    /\ SecureAgenticWallet.config wallet
       = {| agentId := agentId config;
            name := match name config with
                    | EmptyString => agentId config
                    | given => given
                    end;
            walletPermissions := permissions |}
    /\ SecureAgenticWallet.password wallet = password
    /\ executionEngine wallet
       = registerAgent ExecutionEngine.new (agentId config) permissions
    /\ files out.1 = files created.
Proof.
  intros Hfresh created out. subst out created.
  rewrite create_fresh by done. cbn [fst].
  set (created := {| files := _; heap := _ |}).
  assert (Hfile : files created !! SecureKeyStore.getKeyFilePath (agentId config)
                  = Some (SecureKeyStore.sealedRecord keypair.1 keypair.2 password
                            (Some [("name"%string, MetaString (name config));
                                   ("createdAt"%string, MetaNumber nowMeta)])
                            salt iv nowStore)).
  { subst created. cbn [files]. apply lookup_insert_eq. }
  rewrite (load_sealed _ _ _ _ _ _ _ _ _ _ Hfile). cbn [fst snd].
  eexists. split; [reflexivity|].
  cbn [SecureAgenticWallet.config SecureAgenticWallet.password executionEngine files heap].
  repeat split; try done.
  unfold nameOr. cbn [mbind option_bind field]. rewrite String.eqb_refl.
  by destruct (name config).
Qed.

(** X19. [load] in general.  It changes no file and leaves the buffers
    that existed before as they were.  For an id without a wallet it throws
    [Wallet not found] and touches nothing; when [retrieveKey] rejects the
    password or the record, [load] throws the error of [retrieveKey].  It
    returns a wallet only if [retrieveKey] accepted the password; the two
    buffers of the handle are then zero-filled, and the wallet has the
    permissions passed to [load] (they are not read from the store) and a new
    engine: no volume used and an empty history, whatever an earlier wallet of
    the same id had consumed. *)
Theorem load_starts_afresh w walletId perms walletPassword :
  let out := load w walletId perms walletPassword in
  files out.1 = files w
  /\ (forall r, (r < length (heap w))%nat ->
                Buffer.read (heap out.1) r = Buffer.read (heap w) r)
  /\ (SecureKeyStore.hasWallet w walletId = false ->
      out = (w, Throw (WalletNotFound walletId)))
  /\ (forall reason,
        SecureKeyStore.hasWallet w walletId = true ->
        (SecureKeyStore.retrieveKey w walletId walletPassword).2 = Throw reason ->
        out.2 = Throw reason)
  /\ (forall wallet,
        out.2 = Ok wallet ->
        (exists key,
            (SecureKeyStore.retrieveKey w walletId walletPassword).2 = Ok key
            /\ Buffer.blank (Buffer.read (heap out.1) (SecureKeyStore.decrypted key))
            /\ Buffer.blank (Buffer.read (heap out.1) (SecureKeyStore.secretKey key)))
        /\ agentId (SecureAgenticWallet.config wallet) = walletId
        /\ walletPermissions (SecureAgenticWallet.config wallet) = perms
        /\ SecureAgenticWallet.password wallet = walletPassword
        /\ executionEngine wallet = registerAgent ExecutionEngine.new walletId perms
        /\ SecureAgenticWallet.getExecutionHistory wallet = []
        /\ forall now, SecureAgenticWallet.getDailyVolume wallet now = 0%Q).
Proof.
  intros out. subst out. unfold load.
  destruct (SecureKeyStore.hasWallet w walletId) eqn:Hhas; cbn [negb].
  2: { repeat split; try done. }
  pose proof (retrieveKey_buffer_facts w walletId walletPassword) as Hfacts.
  cbn zeta in Hfacts.
  destruct (SecureKeyStore.retrieveKey w walletId walletPassword) as [w1 [key|reason]];
    cbn [fst snd] in Hfacts; destruct Hfacts as (Hfiles & Hold & _ & Hkey).
  2: { cbn [fst snd]. repeat split; try done. by intros reason' _ [= <-]. }
  destruct Hkey as (Horder & _ & Hcfiles & Hsecret & Hdecrypted & Hother).
  assert (Holder : forall r, (r < length (heap w))%nat ->
            Buffer.read (heap (SecureKeyStore.cleanup w1 key)) r = Buffer.read (heap w) r).
  { intros r Hr. rewrite Hother by lia. by apply Hold. }
  destruct (SecureKeyStore.getWalletInfo (SecureKeyStore.cleanup w1 key) walletId)
    as [info|]; cbn [fst snd].
  2: { by repeat split. }
  split; [done|]. split; [done|]. split; [done|]. split; [done|].
  intros wallet [= <-].
  cbn [SecureAgenticWallet.config SecureAgenticWallet.password executionEngine agentId
         walletPermissions].
  split; [by eexists|]. by repeat split.
Qed.

(** [Math.max(0, x)] is [x] or 0. *)
Lemma max0_cases (x : number) :
  ((0 <= x)%Q /\ max0 x = x) \/ ((x < 0)%Q /\ max0 x = 0%Q).
Proof.
  unfold max0. destruct (numGt 0 x) eqn:E.
  - right. by apply numGt_true in E.
  - left. by apply numGt_false in E.
Qed.

(** X20. The figures of [getVolumeStats].  The reported limit is the daily
    limit of the configuration and the reported remainder is
    [getRemainingAllowance]; the remainder is never negative, so the reported
    daily volume never exceeds the limit.  For a wallet whose identity is
    registered in its engine with its own permissions: once the volume used
    exceeds the limit, the remainder is 0 and the reported daily volume is
    the limit, not the volume used; and when nothing is used and the limit is
    not negative, the remainder is the limit and the reported daily volume
    is 0. *)
Theorem getVolumeStats_bounds wallet now :
  let stats := getVolumeStats wallet now in
  let limit := maxDailyVolume (walletPermissions (SecureAgenticWallet.config wallet)) in
  let used := SecureAgenticWallet.getDailyVolume wallet now in
  maxDaily stats = limit
  /\ remaining stats = getRemainingAllowance wallet now
  /\ (0 <= remaining stats)%Q
  /\ (dailyVolume stats <= maxDaily stats)%Q
  /\ (permissions (executionEngine wallet)
        !! agentId (SecureAgenticWallet.config wallet)
      = Some (walletPermissions (SecureAgenticWallet.config wallet)) ->
      ((limit < used)%Q ->
       remaining stats = 0%Q /\ (dailyVolume stats == limit)%Q)
      /\ (used = 0%Q -> (0 <= limit)%Q ->
          (remaining stats == limit)%Q /\ (dailyVolume stats == 0)%Q)).
Proof.
  intros stats limit used. subst stats.
  unfold getVolumeStats. cbn [dailyVolume remaining maxDaily]. fold limit.
  split; [done|]. split; [done|].
  assert (Hremaining : (0 <= getRemainingAllowance wallet now)%Q).
  { unfold getRemainingAllowance, ExecutionEngine.getRemainingAllowance.
    destruct (permissions _ !! _) as [perms|]; [|lra].
    destruct (max0_cases (maxDailyVolume perms
                          - VolumeTracker.getVolume (volumeTracker (executionEngine wallet))
                              (agentId (SecureAgenticWallet.config wallet)) now)%Q)
      as [[Hle ->]|[_ ->]]; lra. }
  split; [done|]. split; [lra|].
  intros Hregistered.
  unfold getRemainingAllowance, ExecutionEngine.getRemainingAllowance.
  rewrite Hregistered. fold limit.
  change (VolumeTracker.getVolume _ _ now) with used.
  split.
  - intros Hover.
    destruct (max0_cases (limit - used)%Q) as [[Hle _]|[_ ->]]; [lra|].
    split; [done|lra].
  - intros -> Hlimit.
    destruct (max0_cases (limit - 0)%Q) as [[_ ->]|[Hneg _]]; [|lra].
    split; lra.
Qed.

(** X21. From [create] to the signing key.  A wallet just made by
    [create] whose profile is not read-only and allows [transfer_sol] passes
    every policy check of [transferSOL] for an amount within the
    per-transaction and daily limits and a non-empty destination that is in
    the allowlist when there is one, with a positive rate limit: [canExecute]
    allows the request, [execute] goes on to [retrieveKey], which under the
    password of the wallet returns the generated secret key and public key,
    and the call ends with [cleanup] and an entry in the history.  What the
    ledger then makes of the transaction is not part of the statement. *)
Theorem created_wallet_reaches_its_key `{!CryptoCorrect crypto} w config walletPassword
    keypair salt iv nowMeta nowStore L clock dest amt :
  let perms := walletPermissions config in
  let params :=
    {| action := transfer_sol; destination := Some dest; amount := Some amt;
       mint := None; tokenAccount := None; decimals := None;
       instructions := None; memo := None; priority := None |} in
  SecureKeyStore.hasWallet w (agentId config) = false ->
  level perms <> READ_ONLY ->
  transfer_sol ∈ allowedActions perms ->
  (amt <= maxTransactionAmount perms)%Q ->
  (amt <= maxDailyVolume perms)%Q ->
  dest <> EmptyString ->
  (forall allowed, allowedDestinations perms = Some allowed -> dest ∈ allowed) ->
  (0 < rateLimit perms)%Q ->
  forall created wallet,
    create w config walletPassword keypair salt iv nowMeta nowStore
      = (created, Ok wallet) ->
    let out := (transferSOL wallet created L clock dest amt).2 in
    canExecute wallet params (atVolumeCheck clock) = PreviewAllowed
    /\ validatePermissions (executionEngine wallet) (agentId config) params = Allowed
    /\ head (trace out) = Some (CallRetrieveKey (agentId config))
    /\ last (trace out) = Some CallCleanup
    /\ (exists w1 key,
          SecureKeyStore.retrieveKey created (agentId config) walletPassword
            = (w1, Ok key)
          /\ Buffer.read (heap w1) (SecureKeyStore.secretKey key) = keypair.1
          /\ SecureKeyStore.handlePublicKey key = keypair.2)
    /\ files (world out) = files created
    /\ ExecutionEngine.getExecutionHistory (engine out) None = [result out].
Proof.
  intros perms params Hfresh Hlevel Haction Hcap Hdaily Hdest Hallow Hrate
    created wallet Hcreate.
  rewrite create_fresh in Hcreate by done. injection Hcreate as <- <-.
  set (created := {| files := _; heap := _ |}).
  set (e := registerAgent ExecutionEngine.new (agentId config) (walletPermissions config)).
  assert (Hperms : permissions e !! agentId config = Some perms).
  { subst e. cbn [registerAgent permissions]. apply lookup_insert_eq. }
  assert (Hamount : (orZero (amount params) == amt)%Q) by apply orZero_some.
  assert (Hsmall : numGt (orZero (amount params)) (maxTransactionAmount perms) = false).
  { apply numGt_false. rewrite Hamount. done. }
  assert (Hlisted : destinationRefused perms params = false).
  { unfold destinationRefused. cbn [destination params truthy].
    destruct (allowedDestinations perms) as [allowed|] eqn:Hlist; [|done].
    destruct dest as [|c rest]; [done|].
    by rewrite (bool_decide_eq_true_2 _ (Hallow allowed eq_refl)). }
  assert (Hvalid : validatePermissions e (agentId config) params = Allowed).
  { rewrite (validatePermissions_firstFailure _ _ _ _ Hperms). cbn [firstFailure].
    rewrite bool_decide_eq_false_2 by done.
    rewrite (bool_decide_eq_true_2 (action params ∈ allowedActions perms)) by done.
    cbn [negb]. by rewrite Hsmall, Hlisted. }
  assert (Hcan : RateLimiter.canExecute (rateLimiter e) (agentId config)
                   (rateLimit perms) (atRateCheck clock) = true).
  { unfold RateLimiter.canExecute. subst e.
    cbn [registerAgent rateLimiter ExecutionEngine.new]. rewrite lookup_empty.
    by apply numLt_true. }
  assert (Hempty : forall t, VolumeTracker.getVolume (volumeTracker e) (agentId config) t
                             = 0%Q).
  { intros t. unfold VolumeTracker.getVolume. subst e.
    cbn [registerAgent volumeTracker ExecutionEngine.new]. by rewrite lookup_empty. }
  assert (Hvolume : numGt (VolumeTracker.getVolume (volumeTracker e) (agentId config)
                             (atVolumeCheck clock) + orZero (amount params))%Q
                      (maxDailyVolume perms) = false).
  { rewrite Hempty. apply numGt_false. rewrite Hamount. lra. }
  assert (Hfile : files created !! SecureKeyStore.getKeyFilePath (agentId config)
                  = Some (SecureKeyStore.sealedRecord keypair.1 keypair.2 walletPassword
                            (Some [("name"%string, MetaString (name config));
                                   ("createdAt"%string, MetaNumber nowMeta)])
                            salt iv nowStore)).
  { subst created. cbn [files]. apply lookup_insert_eq. }
  pose proof (retrieveKey_sealed_heap _ _ _ _ _ _ _ _ _ Hfile) as Hkey.
  set (w1 := {| files := files created; heap := _ |}) in Hkey.
  set (key := {| SecureKeyStore.secretKey := _ |}) in Hkey.
  assert (Hsecret : Buffer.read (heap w1) (SecureKeyStore.secretKey key) = keypair.1).
  { subst w1 key. cbn [heap SecureKeyStore.secretKey].
    by rewrite_at_offset
         (read_app_new (heap created)
            [Buffer.zeros (pbkdf2 walletPassword salt); keypair.1; keypair.1] 2). }
  intros out. subst out.
  cbn [executionEngine SecureAgenticWallet.config SecureAgenticWallet.password].
  fold e. split; [|split; [done|]].
  { unfold canExecute, getRemainingAllowance, ExecutionEngine.getRemainingAllowance.
    cbn [executionEngine SecureAgenticWallet.config]. fold e perms.
    rewrite Hperms, Hempty.
    rewrite (bool_decide_eq_true_2 (action params ∈ allowedActions perms)) by done.
    cbn [negb]. rewrite Hsmall.
    assert (Hremaining : numGt (orZero (amount params)) (max0 (maxDailyVolume perms - 0)%Q)
                         = false).
    { apply numGt_false. rewrite Hamount. unfold max0.
      destruct (numGt 0 (maxDailyVolume perms - 0)%Q) eqn:Hneg; [|lra].
      apply numGt_true in Hneg. lra. }
    rewrite Hremaining. unfold destinationRefused in Hlisted.
    destruct (allowedDestinations perms) as [allowed|],
             (truthy (destination params)) as [d|]; try done.
    by rewrite Hlisted. }
  unfold transferSOL, execute, ExecutionEngine.execute.
  cbn [executionEngine SecureAgenticWallet.config SecureAgenticWallet.password fst snd].
  fold params e. rewrite Hvalid, Hperms, Hcan. cbn [negb]. rewrite Hvolume, Hkey.
  assert (Hhistory : executionLog e = []) by done.
  destruct (signAndSubmit L _ params);
    unfold ExecutionEngine.getExecutionHistory;
    cbn [trace head last world engine result logged executionLog];
    rewrite ?Hhistory; repeat split; try done; by exists w1, key.
Qed.

(** X24. Where the preview is exact.  For a wallet whose identity is
    registered in its engine with its own permissions and is not read-only,
    whose daily limit is not negative and of which nothing is used today, in
    a state where the rate limiter accepts the call, [canExecute] allows a
    request exactly when [execute] takes it as far as key retrieval: with
    nothing used, both compare the amount with the daily limit itself. *)
Theorem canExecute_exact_on_unused_allowance wallet w L clock params :
  let id := agentId (SecureAgenticWallet.config wallet) in
  let perms := walletPermissions (SecureAgenticWallet.config wallet) in
  let e := executionEngine wallet in
  let out := (execute wallet w L clock params).2 in
  permissions e !! id = Some perms ->
  level perms <> READ_ONLY ->
  RateLimiter.canExecute (rateLimiter e) id (rateLimit perms) (atRateCheck clock)
    = true ->
  VolumeTracker.getVolume (volumeTracker e) id (atVolumeCheck clock) = 0%Q ->
  (0 <= maxDailyVolume perms)%Q ->
  canExecute wallet params (atVolumeCheck clock) = PreviewAllowed
  <-> head (trace out) = Some (CallRetrieveKey id).
Proof.
  intros id perms e out Hperms Hlevel Hrate Hunused Hlimit. subst out.
  unfold canExecute, getRemainingAllowance, ExecutionEngine.getRemainingAllowance,
    execute, ExecutionEngine.execute, validatePermissions.
  fold id perms e. rewrite Hperms, Hrate, Hunused.
  rewrite (bool_decide_eq_false_2 (level perms = READ_ONLY)) by done.
  cbn [negb snd].
  assert (Hsame : numGt (orZero (amount params)) (max0 (maxDailyVolume perms - 0)%Q)
                  = numGt (0 + orZero (amount params))%Q (maxDailyVolume perms)).
  { destruct (max0_cases (maxDailyVolume perms - 0)%Q) as [[_ ->]|[Hneg _]]; [|lra].
    destruct (numGt (orZero (amount params)) (maxDailyVolume perms - 0)%Q) eqn:E1,
             (numGt (0 + orZero (amount params))%Q (maxDailyVolume perms)) eqn:E2;
      try done.
    - apply numGt_true in E1. apply numGt_false in E2. lra.
    - apply numGt_false in E1. apply numGt_true in E2. lra. }
  rewrite Hsame.
  destruct (bool_decide (action params ∈ allowedActions perms)); cbn [negb];
    [|done].
  destruct (numGt (orZero (amount params)) (maxTransactionAmount perms)); [done|].
  assert (Hgo : forall b : bool,
             (if b then PreviewDenied DestinationNotWhitelisted else PreviewAllowed)
             = PreviewAllowed <-> b = false) by (by intros []).
  set (over := numGt _ (maxDailyVolume perms)).
  destruct (allowedDestinations perms) as [allowed|],
           (truthy (destination params)) as [dest|];
    try destruct (negb (bool_decide (dest ∈ allowed)));
    cbn [trace]; try done;
    destruct over; cbn [trace head]; try done;
    destruct (SecureKeyStore.retrieveKey w id (password wallet)) as [w1 [key|reason]];
    try done;
    by destruct (signAndSubmit L _ params).
Qed.

(** X22. The default [monitor] profile can do nothing: a wallet with that
    profile, registered in its engine, has every request refused by
    [canExecute] (no action is allowed) and every request rejected by
    [execute] as read-only, without any call on the key store. *)
Theorem monitor_profile_cannot_execute wallet w L clock params now :
  walletPermissions (SecureAgenticWallet.config wallet)
    = createDefaultPermissions monitor ->
  permissions (executionEngine wallet) !! agentId (SecureAgenticWallet.config wallet)
    = Some (createDefaultPermissions monitor) ->
  let out := (execute wallet w L clock params).2 in
  canExecute wallet params now = PreviewDenied (ActionNotAllowed (action params))
  /\ success (result out) = false
  /\ error (result out) = Some ReadOnlyAgent
  /\ trace out = []
  /\ world out = w.
Proof.
  intros Hprofile Hperms out. subst out. split.
  - unfold canExecute. rewrite Hprofile. cbn [createDefaultPermissions allowedActions].
    rewrite bool_decide_eq_false_2; [done|]. apply not_elem_of_nil.
  - unfold execute. cbn [snd].
    rewrite (execute_denied _ _ _ _ _ _ _ ReadOnlyAgent); [done|].
    unfold validatePermissions. by rewrite Hperms.
Qed.

End WalletBehaviour.

(** ** The further properties on concrete inputs *)

Section BehaviourExamples.
Import SecureKeyStore.
#[local] Existing Instance Toy.crypto.
Open Scope string_scope.

Lemma retrieveKey_refusals_witness :
  retrieveKey Toy.emptyWorld "bot" "pw" = (Toy.emptyWorld, Throw (WalletNotFound "bot")).
Proof.
  destruct (@retrieveKey_refusals Toy.crypto Toy.emptyWorld "bot" "pw") as [Habsent _].
  apply Habsent. reflexivity.
Defined.

Lemma deleteWallet_removes_witness :
  let out := deleteWallet Toy.holding "bot" in
  hasWallet out.1 "bot" = false
  /\ getWalletInfo out.1 "bot" = None
  /\ retrieveKey out.1 "bot" "pw" = (out.1, Throw (WalletNotFound "bot"))
  /\ deleteWallet out.1 "bot" = (out.1, false).
Proof.
  destruct (@deleteWallet_removes Toy.crypto Toy.holding "bot" "pw") as (_ & _ & Hgone).
  apply (Hgone "bot"). reflexivity.
Defined.

Lemma other_wallets_untouched_witness :
  let stored := (storeKey Toy.holding "alice" 0 "PUB" "pw" None [x0a] [x0b] 1).1 in
  let deleted := (deleteWallet Toy.holding "alice").1 in
  (files stored !! getKeyFilePath "bot" = files Toy.holding !! getKeyFilePath "bot"
   /\ hasWallet stored "bot" = hasWallet Toy.holding "bot"
   /\ getWalletInfo stored "bot" = getWalletInfo Toy.holding "bot")
  /\ (files deleted !! getKeyFilePath "bot" = files Toy.holding !! getKeyFilePath "bot"
      /\ hasWallet deleted "bot" = hasWallet Toy.holding "bot"
      /\ getWalletInfo deleted "bot" = getWalletInfo Toy.holding "bot").
Proof.
  apply (@other_wallets_untouched Toy.crypto Toy.holding "alice" "bot" 0%nat "PUB" "pw"
           None [x0a] [x0b] 1).
  vm_compute. discriminate.
Defined.

Lemma changePassword_reencrypts_witness :
  let out := changePassword Toy.holding "bot" "pw" "new" [x0c] [x0d] 9 in
  out.2 = Ok tt
  /\ files out.1
     = <[getKeyFilePath "bot" :=
           sealedRecord [x01; x02; x03] "OLD" "new" None [x0c] [x0d] 9]>
         (files Toy.holding)
  /\ exists key w',
       retrieveKey out.1 "bot" "new" = (w', Ok key)
       /\ Buffer.read (heap w') (secretKey key) = [x01; x02; x03]
       /\ handlePublicKey key = "OLD".
Proof.
  destruct (@changePassword_reencrypts Toy.crypto toy_crypto_correct Toy.holding "bot"
              "pw" "new" [x0c] [x0d] 9) as [Hchanged _].
  apply (Hchanged [x01; x02; x03] "OLD" None [x0a] [x0b] 1). reflexivity.
Defined.

(** An id without a wallet: the error of [retrieveKey] comes back and no
    file is written. *)
Example changePassword_unknown_wallet :
  let out := changePassword Toy.holding "ghost" "pw" "new" [x0c] [x0d] 9 in
  out.2 = Throw (WalletNotFound "ghost") /\ files out.1 = files Toy.holding.
Proof. by split. Qed.

Lemma listWallets_lists_sanitized_ids_witness :
  let stored := (storeKey Toy.oneKey "bot/1" 0 "PUB" "pw" None [x0a] [x0b] 1).1 in
  ("bot_1" ∈ listWallets stored
   <-> exists walletId, hasWallet stored walletId = true /\ "bot_1" = sanitize walletId)
  /\ ("bot_1" ∈ listWallets stored ->
      sanitize "bot_1" = "bot_1" /\ hasWallet stored "bot_1" = true).
Proof.
  apply (listWallets_lists_sanitized_ids
           (storeKey Toy.oneKey "bot/1" 0 "PUB" "pw" None [x0a] [x0b] 1).1).
  destruct (onlyKeyFiles_kept Toy.oneKey "bot/1" 0%nat "PUB" "pw" None [x0a] [x0b] 1)
    as [Hempty Hkept].
  apply Hkept, Hempty. reflexivity.
Defined.

(** The listing of the store of the witness above. *)
Example listWallets_sample :
  listWallets (storeKey Toy.oneKey "bot/1" 0 "PUB" "pw" None [x0a] [x0b] 1).1
  = ["bot_1"].
Proof. reflexivity. Qed.

Lemma rate_limiter_keeps_100_timestamps_witness :
  RateLimiter.canExecute (RateLimiter.recordTransaction ∅ "bot" 1000) "bot" 0%Q 2000
  = false.
Proof.
  destruct (rate_limiter_keeps_100_timestamps
              (RateLimiter.recordTransaction ∅ "bot" 1000) "bot" 2000 0%Q)
    as (_ & _ & _ & Hzero).
  apply Hzero. apply Qle_refl.
Defined.

Lemma rate_limit_sliding_window_witness :
  let transactions := RateLimiter.recordAll ∅ "bot" [1000; 2000] in
  ((forall t, t ∈ [1000; 2000] -> 3000 - t < 60000) ->
     RateLimiter.canExecute transactions "bot" 2%Q 3000
     = numLt (inject_Z (Z.of_nat 2)) 2%Q)
  /\ ((forall t, t ∈ [1000; 2000] -> 60000 <= 3000 - t) ->
      RateLimiter.canExecute transactions "bot" 2%Q 3000 = numLt 0%Q 2%Q)
  /\ (forall other otherLimit,
        other <> "bot" ->
        RateLimiter.canExecute transactions other otherLimit 3000
        = numLt 0%Q otherLimit).
Proof.
  apply (rate_limit_sliding_window "bot" [1000; 2000] 2%Q 3000).
  simpl. lia.
Defined.

(** With a limit of 2, the call after the second one is refused, and
    accepted again a minute later. *)
Example rate_limit_sample :
  let transactions := RateLimiter.recordAll ∅ "bot" [1000; 2000] in
  RateLimiter.canExecute (RateLimiter.recordAll ∅ "bot" [1000]) "bot" 2%Q 1500 = true
  /\ RateLimiter.canExecute transactions "bot" 2%Q 3000 = false
  /\ RateLimiter.canExecute transactions "bot" 2%Q 62000 = true.
Proof. by repeat split. Qed.

Lemma volume_adds_up_in_call_order_witness :
  VolumeTracker.getVolume
    (VolumeTracker.addAll ∅ "bot" [(1%Q, 1000%Z); (2%Q, 5000%Z); (3%Q, 6000%Z)])
    "bot" 3000%Z
  = foldl Qplus 1%Q [2%Q; 3%Q].
Proof.
  destruct (volume_adds_up_in_call_order ∅ "bot"
              [(1%Q, 1000%Z); (2%Q, 5000%Z); (3%Q, 6000%Z)] 3000) as [_ Hfirst].
  - intros call Hcall.
    apply elem_of_cons in Hcall as [->|Hcall]; [reflexivity|].
    apply elem_of_cons in Hcall as [->|Hcall]; [reflexivity|].
    apply elem_of_cons in Hcall as [->|Hcall]; [reflexivity|].
    by apply elem_of_nil in Hcall.
  - apply (Hfirst (fun record Hrecord => match lookup_empty_Some _ _ Hrecord with end)
             (1%Q, 1000%Z) [(2%Q, 5000%Z); (3%Q, 6000%Z)] eq_refl).
Defined.

(** A record of the day: the amounts are added to it one after the
    other. *)
Example volume_adds_to_the_record_of_the_day :
  let tracker := VolumeTracker.addVolume ∅ "bot" (1 # 10) 1000 in
  VolumeTracker.getVolume
    (VolumeTracker.addAll tracker "bot" [((2 # 10)%Q, 2000%Z); ((3 # 10)%Q, 3000%Z)])
    "bot" 4000
  = ((1 # 10) + (2 # 10) + (3 # 10))%Q.
Proof. reflexivity. Qed.

Lemma buildTransaction_requirements_witness :
  is_Some (truthy (destination (Toy.transfer "ALICE" 1%Q)))
  /\ is_Some (amount (Toy.transfer "ALICE" 1%Q)).
Proof.
  eapply (buildTransaction_requirements Toy.ledger "PUB" (Toy.transfer "ALICE" 1%Q)).
  reflexivity.
Defined.

Lemma unbuildable_requests_never_succeed_witness :
  let e := Toy.engineOf (SecureAgenticWallet.createDefaultPermissions
                           SecureAgenticWallet.admin) in
  let out :=
    ExecutionEngine.execute e Toy.holding Toy.ledger (Toy.clock 1000) "bot" "pw"
      Toy.closeAccount in
  success (ExecutionEngine.result out) = false
  /\ ExecutionEngine.rateLimiter (ExecutionEngine.engine out)
     = ExecutionEngine.rateLimiter e
  /\ ExecutionEngine.volumeTracker (ExecutionEngine.engine out)
     = ExecutionEngine.volumeTracker e.
Proof.
  apply (@unbuildable_requests_never_succeed Toy.crypto
           (Toy.engineOf (SecureAgenticWallet.createDefaultPermissions
                            SecureAgenticWallet.admin))
           Toy.holding Toy.ledger (Toy.clock 1000) "bot" "pw" Toy.closeAccount).
  left. reflexivity.
Defined.

(** The call of the witness above passes every check and has its key
    decrypted before it fails. *)
Example close_account_sample :
  let out :=
    ExecutionEngine.execute
      (Toy.engineOf (SecureAgenticWallet.createDefaultPermissions
                       SecureAgenticWallet.admin))
      Toy.holding Toy.ledger (Toy.clock 1000) "bot" "pw" Toy.closeAccount in
  error (ExecutionEngine.result out) = Some (UnknownAction close_account)
  /\ ExecutionEngine.trace out = [CallRetrieveKey "bot"; CallCleanup].
Proof. by split. Qed.


Lemma read_only_and_unknown_agents_rejected_witness :
  let e := Toy.engineOf Toy.readOnly in
  let out :=
    ExecutionEngine.execute e Toy.holding Toy.ledger (Toy.clock 1000) "bot" "pw"
      (Toy.transfer "ALICE" (1 # 100)) in
  success (ExecutionEngine.result out) = false
  /\ error (ExecutionEngine.result out) = Some ReadOnlyAgent
  /\ ExecutionEngine.trace out = []
  /\ ExecutionEngine.engine out = e
  /\ ExecutionEngine.world out = Toy.holding.
Proof.
  destruct (@read_only_and_unknown_agents_rejected Toy.crypto (Toy.engineOf Toy.readOnly)
              Toy.holding Toy.ledger (Toy.clock 1000) "bot" "pw"
              (Toy.transfer "ALICE" (1 # 100))) as [Hreadonly _].
  apply (Hreadonly Toy.readOnly); reflexivity.
Defined.

Lemma create_stores_and_registers_witness :
  let out :=
    SecureAgenticWallet.create Toy.oneKey (Toy.configOf Toy.standard) "pw"
      ([x01; x02; x03], "PUB") [x0a] [x0b] 1 2 in
  exists wallet,
    out.2 = Ok wallet
    /\ SecureAgenticWallet.config wallet = Toy.configOf Toy.standard
    /\ SecureAgenticWallet.password wallet = "pw"
    /\ ExecutionEngine.permissions (SecureAgenticWallet.executionEngine wallet) !! "bot"
       = Some Toy.standard
    /\ ExecutionEngine.rateLimiter (SecureAgenticWallet.executionEngine wallet) = ∅
    /\ ExecutionEngine.volumeTracker (SecureAgenticWallet.executionEngine wallet) = ∅
    /\ ExecutionEngine.executionLog (SecureAgenticWallet.executionEngine wallet) = []
    /\ hasWallet out.1 "bot" = true
    /\ SecureAgenticWallet.getAddress wallet out.1 = "PUB"
    /\ (forall r, (r < 1)%nat ->
                  Buffer.read (heap out.1) r = Buffer.read (heap Toy.oneKey) r)
    /\ Buffer.read (heap out.1) 1 = [x01; x02; x03]
    /\ Buffer.read (heap out.1) 2 = Buffer.zeros (pbkdf2 "pw" [x0a])
    /\ Buffer.read (heap out.1) 3 = Buffer.zeros [x01; x02; x03]
    /\ Buffer.read (heap out.1) 4 = Buffer.zeros [x01; x02; x03]
    /\ exists key w',
         retrieveKey out.1 "bot" "pw" = (w', Ok key)
         /\ Buffer.read (heap w') (secretKey key) = [x01; x02; x03].
Proof.
  apply (@create_stores_and_registers Toy.crypto toy_crypto_correct Toy.oneKey
           (Toy.configOf Toy.standard) "pw" ([x01; x02; x03], "PUB") [x0a] [x0b] 1 2).
  reflexivity.
Defined.

Lemma create_then_load_witness :
  let created :=
    (SecureAgenticWallet.create Toy.emptyWorld (Toy.configOf Toy.standard) "pw"
       ([x01; x02; x03], "PUB") [x0a] [x0b] 1 2).1 in
  let out := SecureAgenticWallet.load created "bot" Toy.restricted "pw" in
  exists wallet,
    out.2 = Ok wallet
    /\ SecureAgenticWallet.config wallet
       = {| agentId := "bot"; name := "Bot"; walletPermissions := Toy.restricted |}
    /\ SecureAgenticWallet.password wallet = "pw"
    /\ SecureAgenticWallet.executionEngine wallet
       = ExecutionEngine.registerAgent ExecutionEngine.new "bot" Toy.restricted
    /\ files out.1 = files created.
Proof.
  apply (@create_then_load Toy.crypto toy_crypto_correct Toy.emptyWorld
           (Toy.configOf Toy.standard) "pw" ([x01; x02; x03], "PUB") [x0a] [x0b] 1 2
           Toy.restricted).
  reflexivity.
Defined.

Lemma load_starts_afresh_witness :
  let out := SecureAgenticWallet.load Toy.holding "bot" Toy.restricted "pw" in
  let loaded :=
    {| SecureAgenticWallet.executionEngine := Toy.engineOf Toy.restricted;
       SecureAgenticWallet.config :=
         {| agentId := "bot"; name := "bot"; walletPermissions := Toy.restricted |};
       SecureAgenticWallet.password := "pw" |} in
  out.2 = Ok loaded
  /\ (exists key,
        (retrieveKey Toy.holding "bot" "pw").2 = Ok key
        /\ Buffer.blank (Buffer.read (heap out.1) (decrypted key))
        /\ Buffer.blank (Buffer.read (heap out.1) (secretKey key)))
  /\ agentId (SecureAgenticWallet.config loaded) = "bot"
  /\ walletPermissions (SecureAgenticWallet.config loaded) = Toy.restricted
  /\ SecureAgenticWallet.password loaded = "pw"
  /\ SecureAgenticWallet.executionEngine loaded
     = ExecutionEngine.registerAgent ExecutionEngine.new "bot" Toy.restricted
  /\ SecureAgenticWallet.getExecutionHistory loaded = []
  /\ forall now, SecureAgenticWallet.getDailyVolume loaded now = 0%Q.
Proof.
  split; [reflexivity|].
  destruct (@load_starts_afresh Toy.crypto Toy.holding "bot" Toy.restricted "pw")
    as (_ & _ & _ & _ & Hloaded).
  apply Hloaded. reflexivity.
Defined.

(** [load] of an id without a wallet. *)
Example load_unknown_wallet :
  SecureAgenticWallet.load Toy.emptyWorld "bot" Toy.standard "pw"
  = (Toy.emptyWorld, Throw (WalletNotFound "bot")).
Proof. reflexivity. Qed.

Lemma created_wallet_reaches_its_key_witness :
  let created := (Toy.created Toy.standard).1 in
  let out :=
    (SecureAgenticWallet.transferSOL (Toy.walletOf Toy.standard) created Toy.ledger
       (Toy.clock 1000) "ALICE" (1 # 100)).2 in
  (Toy.created Toy.standard).2 = Ok (Toy.walletOf Toy.standard)
  /\ SecureAgenticWallet.canExecute (Toy.walletOf Toy.standard)
       (Toy.transfer "ALICE" (1 # 100)) 1000
     = SecureAgenticWallet.PreviewAllowed
  /\ ExecutionEngine.validatePermissions (Toy.engineOf Toy.standard) "bot"
       (Toy.transfer "ALICE" (1 # 100))
     = ExecutionEngine.Allowed
  /\ head (ExecutionEngine.trace out) = Some (CallRetrieveKey "bot")
  /\ last (ExecutionEngine.trace out) = Some CallCleanup
  /\ (exists w1 key,
        retrieveKey created "bot" "pw" = (w1, Ok key)
        /\ Buffer.read (heap w1) (secretKey key) = [x01; x02; x03]
        /\ handlePublicKey key = "PUB")
  /\ files (ExecutionEngine.world out) = files created
  /\ ExecutionEngine.getExecutionHistory (ExecutionEngine.engine out) None
     = [ExecutionEngine.result out].
Proof.
  split; [reflexivity|].
  apply (@created_wallet_reaches_its_key Toy.crypto toy_crypto_correct Toy.emptyWorld
           (Toy.configOf Toy.standard) "pw" ([x01; x02; x03], "PUB") [x0a] [x0b] 1 2
           Toy.ledger (Toy.clock 1000) "ALICE" (1 # 100)%Q).
  - reflexivity.
  - discriminate.
  - apply elem_of_cons. left. reflexivity.
  - by apply Qle_bool_iff.
  - by apply Qle_bool_iff.
  - discriminate.
  - discriminate.
  - reflexivity.
  - reflexivity.
Defined.

Lemma monitor_profile_cannot_execute_witness :
  let wallet :=
    Toy.walletOf (SecureAgenticWallet.createDefaultPermissions
                    SecureAgenticWallet.monitor) in
  let out :=
    (SecureAgenticWallet.execute wallet Toy.holding Toy.ledger (Toy.clock 1000)
       (Toy.transfer "ALICE" (1 # 1000))).2 in
  SecureAgenticWallet.canExecute wallet (Toy.transfer "ALICE" (1 # 1000)) 1000
  = SecureAgenticWallet.PreviewDenied (ActionNotAllowed transfer_sol)
  /\ success (ExecutionEngine.result out) = false
  /\ error (ExecutionEngine.result out) = Some ReadOnlyAgent
  /\ ExecutionEngine.trace out = []
  /\ ExecutionEngine.world out = Toy.holding.
Proof.
  apply (@monitor_profile_cannot_execute Toy.crypto
           (Toy.walletOf (SecureAgenticWallet.createDefaultPermissions
                            SecureAgenticWallet.monitor))
           Toy.holding Toy.ledger (Toy.clock 1000) (Toy.transfer "ALICE" (1 # 1000)) 1000);
    reflexivity.
Defined.

Lemma rate_and_volume_rejections_touch_nothing_witness :
  let e := Toy.engineOf Toy.restricted in
  let out :=
    ExecutionEngine.execute e Toy.holding Toy.ledger (Toy.clock 1000) "bot" "pw"
      (Toy.transfer "ALICE" (5 # 10)) in
  success (ExecutionEngine.result out) = false
  /\ error (ExecutionEngine.result out)
     = Some (DailyVolumeLimitExceeded 0%Q (2 # 10)%Q)
  /\ ExecutionEngine.trace out = []
  /\ ExecutionEngine.engine out = e
  /\ ExecutionEngine.world out = Toy.holding.
Proof.
  destruct (@rate_and_volume_rejections_touch_nothing Toy.crypto
              (Toy.engineOf Toy.restricted) Toy.holding Toy.ledger (Toy.clock 1000)
              "bot" "pw" (Toy.transfer "ALICE" (5 # 10)) Toy.restricted eq_refl eq_refl)
    as [_ Hvolume].
  apply Hvolume; reflexivity.
Defined.

Lemma getVolumeStats_bounds_witness :
  let stats :=
    SecureAgenticWallet.getVolumeStats (Toy.walletOf Toy.negativeDaily) 1000 in
  SecureAgenticWallet.remaining stats = 0%Q
  /\ (SecureAgenticWallet.dailyVolume stats == maxDailyVolume Toy.negativeDaily)%Q.
Proof.
  destruct (getVolumeStats_bounds (Toy.walletOf Toy.negativeDaily) 1000)
    as (_ & _ & _ & _ & Hregistered).
  destruct (Hregistered eq_refl) as [Hover _].
  apply Hover. reflexivity.
Defined.

(** The figures of a wallet that has used all of its allowance of 1 SOL. *)
Example getVolumeStats_sample :
  let wallet := Toy.walletOf Toy.oneADay in
  let after :=
    (SecureAgenticWallet.transferSOL wallet Toy.holding Toy.ledger (Toy.clock 1000)
       "ALICE" 1).1 in
  SecureAgenticWallet.getVolumeStats wallet 1000
  = {| SecureAgenticWallet.dailyVolume := (1 - (1 - 0))%Q;
       SecureAgenticWallet.remaining := (1 - 0)%Q;
       SecureAgenticWallet.maxDaily := 1 |}
  /\ SecureAgenticWallet.getVolumeStats after 2000
     = {| SecureAgenticWallet.dailyVolume := (1 - (1 - 1))%Q;
          SecureAgenticWallet.remaining := (1 - 1)%Q;
          SecureAgenticWallet.maxDaily := 1 |}.
Proof. by split. Qed.

Lemma canExecute_exact_on_unused_allowance_witness :
  SecureAgenticWallet.canExecute (Toy.walletOf Toy.standard)
    (Toy.transfer "ALICE" (1 # 100)) 1000
  = SecureAgenticWallet.PreviewAllowed
  <-> head (ExecutionEngine.trace
              (SecureAgenticWallet.execute (Toy.walletOf Toy.standard) Toy.holding
                 Toy.ledger (Toy.clock 1000) (Toy.transfer "ALICE" (1 # 100))).2)
      = Some (CallRetrieveKey "bot").
Proof.
  apply (@canExecute_exact_on_unused_allowance Toy.crypto
           (Toy.walletOf Toy.standard) Toy.holding Toy.ledger (Toy.clock 1000)
           (Toy.transfer "ALICE" (1 # 100))).
  - reflexivity.
  - discriminate.
  - reflexivity.
  - reflexivity.
  - by apply Qle_bool_iff.
Defined.

Lemma retrieveKey_wipes_derived_key_and_handle_witness :
  let out := retrieveKey Toy.holding "bot" "pw" in
  (forall r, (r < 3)%nat -> Buffer.read (heap out.1) r = Buffer.read (heap Toy.holding) r)
  /\ Buffer.blank (Buffer.read (heap out.1) 3).
Proof.
  destruct (@retrieveKey_wipes_derived_key_and_handle Toy.crypto Toy.holding "bot" "pw")
    as (_ & Hold & Hderived & _).
  split; [exact Hold | exact Hderived].
Defined.

(** The handle of the call of the witness above, before and after
    [cleanup]. *)
Example retrieveKey_handle_sample :
  let out := retrieveKey Toy.holding "bot" "pw" in
  let key := {| secretKey := 5; handlePublicKey := "OLD"; decrypted := 4 |} in
  out.2 = Ok key
  /\ Buffer.read (heap out.1) 4 = [x01; x02; x03]
  /\ Buffer.read (heap out.1) 5 = [x01; x02; x03]
  /\ Buffer.read (heap (cleanup out.1 key)) 4 = [x00; x00; x00]
  /\ Buffer.read (heap (cleanup out.1 key)) 5 = [x00; x00; x00].
Proof. by repeat split. Qed.

Lemma execute_wipes_the_key_handle_witness :
  let out :=
    ExecutionEngine.execute (Toy.engineOf Toy.standard) Toy.holding Toy.ledger
      (Toy.clock 1000) "bot" "pw" (Toy.transfer "ALICE" (1 # 100)) in
  Buffer.blank (Buffer.read (heap (ExecutionEngine.world out)) 3)
  /\ Buffer.blank (Buffer.read (heap (ExecutionEngine.world out)) 4)
  /\ Buffer.blank (Buffer.read (heap (ExecutionEngine.world out)) 5)
  /\ last (ExecutionEngine.trace out) = Some CallCleanup.
Proof.
  destruct (@execute_wipes_the_key_handle Toy.crypto (Toy.engineOf Toy.standard)
              Toy.holding Toy.ledger (Toy.clock 1000) "bot" "pw"
              (Toy.transfer "ALICE" (1 # 100))) as (_ & _ & _ & Hwiped).
  apply (Hwiped (retrieveKey Toy.holding "bot" "pw").1
           {| secretKey := 5; handlePublicKey := "OLD"; decrypted := 4 |}).
  - reflexivity.
  - discriminate.
Defined.

(** The same on a client on which confirmation times out: the call fails
    and the handle is wiped all the same. *)
Example execute_wipes_on_failure :
  let out :=
    ExecutionEngine.execute (Toy.engineOf Toy.standard) Toy.holding Toy.unconfirmed
      (Toy.clock 1000) "bot" "pw" (Toy.transfer "ALICE" (1 # 100)) in
  success (ExecutionEngine.result out) = false
  /\ Buffer.read (heap (ExecutionEngine.world out)) 4 = [x00; x00; x00]
  /\ Buffer.read (heap (ExecutionEngine.world out)) 5 = [x00; x00; x00]
  /\ ExecutionEngine.trace out = [CallRetrieveKey "bot"; CallCleanup].
Proof. by repeat split. Qed.

End BehaviourExamples.
